(** * Moonshine: the session-management and streaming protocol stack

    A shallow embedding of the parts of the moonshine game-streaming host
    that decide its pairing responses (src/src/webserver/pairing.rs), its
    RTSP negotiation (src/moonshine/src/rtsp.rs), the session manager actor
    (src/src/session/manager.rs) and the video stream task
    (src/src/session/stream/video/mod.rs).

    Library code the repository calls (hyper, hex, sdp_types, rtsp_types,
    tokio channels) is modelled by its documented behaviour; formatting done
    by library [Debug]/[Display] implementations is kept abstract. *)

From Stdlib Require Import String Ascii NArith List Bool Lia.
From stdpp Require Import base gmap strings list pretty.

Import ListNotations.
Open Scope N_scope.

(** Results of fallible Rust calls ([Result<T, E>] with a rendered error). *)
Inductive result (A : Type) : Type :=
| Ok (a : A)
| Err (e : string).
Arguments Ok {A} a.
Arguments Err {A} e.

Definition sappend (a b : string) : string := String.append a b.

(** ** HTTP responses built by the pairing handlers *)
Module Http.

Record Response := mkResponse {
  status : N;
  headers : list (string * string);
  body : string;
}.

(** Modelled from the spec: [crate::webserver::bad_request], which is not
    under src/.  Protocol errors "reply with HTTP 400", and
    "[/pair?phrase=bogus] -> HTTP 400 body [Unknown pair phrase received: bogus]":
    the message passed in is the body.  Its headers are given by neither the
    spec nor src/; the empty list stands for them, and no property below
    depends on them. *)
Definition bad_request (message : string) : Response :=
  {| status := 400; headers := []; body := message |}.

(** [Response::new(Full::new(Bytes::from(response)))] has status 200 OK;
    the handlers then insert the XML content type. *)
Definition xml_response (xml : string) : Response :=
  {| status := 200; headers := [("content-type", "application/xml")]; body := xml |}.

End Http.

(** ** hex::decode / hex::encode (hex 0.4) *)
Module Hex.

Inductive FromHexError :=
| OddLength
| InvalidHexCharacter (c : ascii) (index : N).

Definition hex_val (c : ascii) : option N :=
  let n := N_of_ascii c in
  if (48 <=? n) && (n <=? 57) then Some (n - 48)
  else if (97 <=? n) && (n <=? 102) then Some (n - 87)
  else if (65 <=? n) && (n <=? 70) then Some (n - 55)
  else None.

(** Decoding pairs of digits from position [i] on; the length was already
    checked to be even. *)
Fixpoint decode_pairs (s : string) (i : N) : option (list N) + FromHexError :=
  match s with
  | EmptyString => inl (Some [])
  | String a EmptyString => inl None
  | String a (String b rest) =>
      match hex_val a, hex_val b with
      | None, _ => inr (InvalidHexCharacter a i)
      | Some _, None => inr (InvalidHexCharacter b (i + 1))
      | Some x, Some y =>
          match decode_pairs rest (i + 2) with
          | inl (Some l) => inl (Some ((16 * x + y) :: l))
          | other => other
          end
      end
  end.

Definition decode (s : string) : list N + FromHexError :=
  if N.odd (N.of_nat (String.length s)) then inr OddLength
  else match decode_pairs s 0 with
       | inl (Some l) => inl l
       | inl None => inr OddLength
       | inr e => inr e
       end.

Definition digit (n : N) : ascii :=
  ascii_of_N (if n <? 10 then 48 + n else 87 + n).

(** [hex::encode] writes lower-case digits. *)
Fixpoint encode (l : list N) : string :=
  match l with
  | [] => EmptyString
  | x :: rest => String (digit (x / 16)) (String (digit (x mod 16)) (encode rest))
  end.

End Hex.

(** ** The client registry interface (crate::clients, not under src/)

    Only its call signatures are known from src/: each call either succeeds
    with a value or fails with an error message.  The results of one call
    are given as functions of its arguments. *)
Module Clients.
Section Clients.
Variable X509 : Type.

(** [PendingClient]; the [pin_notify] handle carries no data and is left out. *)
Record PendingClient := {
  id : string;
  pem : X509;
  salt : list N;
  key : option (list N);
  server_secret : option (list N);
  server_challenge : option (list N);
  client_hash : option (list N);
}.

Record ClientManager := {
  start_pairing : PendingClient -> result unit;
  client_challenge : string -> list N -> result (list N);
  server_challenge_response : string -> list N -> result (list N);
  add_client : string -> result unit;
  check_client_pairing_secret : string -> list N -> result unit;
}.
End Clients.
End Clients.

(** ** src/src/webserver/pairing.rs *)
Module Pairing.
Import Http.

Section Pairing.
(** The certificate type and the openssl calls on it. *)
Variable X509 : Type.
Variable x509_from_pem : list N -> result X509.
Variable x509_to_pem : X509 -> result (list N).
(** Library formatting: [format!("{:?}", params.keys())] (in the hash map's
    iteration order), [Display] of a [FromHexError], [Debug] of the
    rejected salt vector and [Debug] of the whole parameter map. *)
Variable show_keys : gmap string string -> string.
Variable show_hex_error : Hex.FromHexError -> string.
Variable show_bytes : list N -> string.
Variable show_params : gmap string string -> string.

Local Abbreviation ClientManager := (Clients.ClientManager X509).
Local Open Scope string_scope.

Definition dq : string := String "034"%char EmptyString.

(** [<root status_code="200"><paired>1</paired>...</root>] *)
Definition paired_root (inner : string) : string :=
  sappend "<root status_code=" (sappend dq (sappend "200" (sappend dq
    (sappend "><paired>1</paired>" (sappend inner "</root>"))))).

Definition get_server_cert (params : gmap string string) (server_pem : X509)
    (client_manager : ClientManager) : Response :=
  match params !! "clientcert" with
  | None =>
      bad_request (sappend "Expected 'clientcert' in get server cert request, got "
        (sappend (show_keys params) "."))
  | Some client_cert =>
    let params := delete "clientcert" params in
    match Hex.decode client_cert with
    | inr e => bad_request (show_hex_error e)
    | inl client_cert =>
    match params !! "uniqueid" with
    | None =>
        bad_request (sappend "Expected 'uniqueid' in get server cert request, got "
          (sappend (show_keys params) "."))
    | Some unique_id =>
    let params := delete "uniqueid" params in
    match params !! "salt" with
    | None =>
        bad_request (sappend "Expected 'salt' in get server cert request, got "
          (sappend (show_keys params) "."))
    | Some salt =>
    match Hex.decode salt with
    | inr e => bad_request (show_hex_error e)
    | inl salt =>
    if negb (Nat.eqb (length salt) 16) then
      bad_request (sappend "Failed to parse salt value, expected exactly 16 values but got "
        (show_bytes salt))
    else
    match x509_from_pem client_cert with
    | Err e => bad_request e
    | Ok pem =>
    let pending_client :=
      {| Clients.id := unique_id; Clients.pem := pem; Clients.salt := salt;
         Clients.key := None; Clients.server_secret := None;
         Clients.server_challenge := None; Clients.client_hash := None |} in
    match Clients.start_pairing _ client_manager pending_client with
    | Err e => bad_request (sappend "Failed to start pairing client: " e)
    | Ok _ =>
    (* [pin_notifier.notified().await]: the request resumes once /pin is posted. *)
    match x509_to_pem server_pem with
    | Err e => bad_request e
    | Ok serialized_server_pem =>
        xml_response (paired_root
          (sappend "<plaincert>" (sappend (Hex.encode serialized_server_pem) "</plaincert>")))
    end end end end end end end
  end.

Definition client_challenge (params : gmap string string)
    (client_manager : ClientManager) : Response :=
  match params !! "uniqueid" with
  | None =>
      bad_request (sappend "Expected 'uniqueid' in get server cert request, got "
        (sappend (show_keys params) "."))
  | Some unique_id =>
  let params := delete "uniqueid" params in
  match params !! "clientchallenge" with
  | None =>
      bad_request (sappend "Expected 'clientchallenge' in get server cert request, got "
        (sappend (show_keys params) "."))
  | Some challenge =>
  match Hex.decode challenge with
  | inr e => bad_request (show_hex_error e)
  | inl challenge =>
  match Clients.client_challenge _ client_manager unique_id challenge with
  | Err e => bad_request (sappend "Failed to process client challenge: " e)
  | Ok challenge_response =>
      xml_response (paired_root
        (sappend "<challengeresponse>"
          (sappend (Hex.encode challenge_response) "</challengeresponse>")))
  end end end
  end.

Definition server_challenge_response (params : gmap string string)
    (client_manager : ClientManager) : Response :=
  match params !! "serverchallengeresp" with
  | None =>
      bad_request (sappend "Expected 'serverchallengeresp' in server challenge response request, got "
        (sappend (show_keys params) "."))
  | Some server_challenge_response =>
  let params := delete "serverchallengeresp" params in
  match Hex.decode server_challenge_response with
  | inr e => bad_request (show_hex_error e)
  | inl server_challenge_response =>
  match params !! "uniqueid" with
  | None =>
      bad_request (sappend "Expected 'uniqueid' in get server cert request, got "
        (sappend (show_keys params) "."))
  | Some unique_id =>
  match Clients.server_challenge_response _ client_manager unique_id server_challenge_response with
  | Err _ => bad_request "Failed to process server challenge response"
  | Ok pairing_secret =>
      xml_response (paired_root
        (sappend "<pairingsecret>" (sappend (Hex.encode pairing_secret) "</pairingsecret>")))
  end end end
  end.

Definition pair_challenge (params : gmap string string)
    (client_manager : ClientManager) : Response :=
  match params !! "uniqueid" with
  | None =>
      bad_request (sappend "Expected 'uniqueid' in pair challenge, got "
        (sappend (show_keys params) "."))
  | Some unique_id =>
      (* All moonlight clients use the same uniqueid, so errors are ignored. *)
      let _ := Clients.add_client _ client_manager unique_id in
      xml_response (paired_root "")
  end.

Definition client_pairing_secret (params : gmap string string)
    (client_manager : ClientManager) : Response :=
  match params !! "clientpairingsecret" with
  | None =>
      bad_request (sappend "Expected 'clientpairingsecret' in client pairing secret request, got "
        (sappend (show_keys params) "."))
  | Some client_pairing_secret =>
  let params := delete "clientpairingsecret" params in
  match Hex.decode client_pairing_secret with
  | inr e => bad_request (show_hex_error e)
  | inl client_pairing_secret =>
  match params !! "uniqueid" with
  | None =>
      bad_request (sappend "Expected 'uniqueid' in pair challenge, got "
        (sappend (show_keys params) "."))
  | Some unique_id =>
  match Clients.check_client_pairing_secret _ client_manager unique_id client_pairing_secret with
  | Err _ => bad_request "Failed to check client pairing secret"
  | Ok _ => xml_response (paired_root "")
  end end end
  end.

(** [handle_pair_request]: dispatch on [phrase], then on the presence of the
    step-specific parameter. *)
Definition handle_pair_request (params : gmap string string) (server_certs : X509)
    (client_manager : ClientManager) : Response :=
  match params !! "phrase" with
  | Some phrase =>
      let params := delete "phrase" params in
      if String.eqb phrase "getservercert" then get_server_cert params server_certs client_manager
      else if String.eqb phrase "pairchallenge" then pair_challenge params client_manager
      else bad_request (sappend "Unknown pair phrase received: " phrase)
  | None =>
      if bool_decide (is_Some (params !! "clientchallenge")) then
        client_challenge params client_manager
      else if bool_decide (is_Some (params !! "serverchallengeresp")) then
        server_challenge_response params client_manager
      else if bool_decide (is_Some (params !! "clientpairingsecret")) then
        client_pairing_secret params client_manager
      else bad_request (sappend "Unknown pair command with params: " (show_params params))
  end.

End Pairing.
End Pairing.

(** ** Text helpers of the Rust standard library *)
Module RustStr.

(** [str::trim] strips the characters with the Unicode White_Space
    property ([char::is_whitespace]) from both ends.  A [str] is held here
    as its UTF-8 bytes, one [ascii] per byte, so a white-space character is
    one of these byte sequences:
    - U+0009 to U+000D and U+0020: one byte;
    - U+0085 and U+00A0: C2 85 and C2 A0;
    - U+1680: E1 9A 80; U+2000 to U+200A: E2 80 80 to E2 80 8A;
      U+2028, U+2029, U+202F: E2 80 A8, E2 80 A9, E2 80 AF;
      U+205F: E2 81 9F; U+3000: E3 80 80.
    In valid UTF-8 a lead byte starts a character, so matching these
    sequences at the start, or at the end, of the bytes finds exactly the
    white-space characters there. *)
Definition is_whitespace (c : ascii) : bool :=
  let n := N_of_ascii c in
  (n =? 32) || ((9 <=? n) && (n <=? 13)).

Definition is_whitespace2 (c0 c1 : ascii) : bool :=
  let n0 := N_of_ascii c0 in
  let n1 := N_of_ascii c1 in
  (n0 =? 194) && ((n1 =? 133) || (n1 =? 160)).

Definition is_whitespace3 (c0 c1 c2 : ascii) : bool :=
  let n0 := N_of_ascii c0 in
  let n1 := N_of_ascii c1 in
  let n2 := N_of_ascii c2 in
  ((n0 =? 225) && (n1 =? 154) && (n2 =? 128)) ||
  ((n0 =? 226) && (n1 =? 128) &&
     (((128 <=? n2) && (n2 <=? 138)) || (n2 =? 168) || (n2 =? 169) || (n2 =? 175))) ||
  ((n0 =? 226) && (n1 =? 129) && (n2 =? 159)) ||
  ((n0 =? 227) && (n1 =? 128) && (n2 =? 128)).

(** [trim_start]: drop white-space characters from the front. *)
Fixpoint trim_start (s : string) : string :=
  match s with
  | EmptyString => EmptyString
  | String c r =>
      if is_whitespace c then trim_start r else
      match r with
      | EmptyString => s
      | String c1 r1 =>
          if is_whitespace2 c c1 then trim_start r1 else
          match r1 with
          | EmptyString => s
          | String c2 r2 => if is_whitespace3 c c1 c2 then trim_start r2 else s
          end
      end
  end.

Fixpoint rev_string (s : string) (acc : string) : string :=
  match s with
  | EmptyString => acc
  | String c r => rev_string r (String c acc)
  end.

(** [trim_end] on the reversed bytes: drop white-space characters, whose
    bytes appear last first, from the front. *)
Fixpoint trim_start_rev (s : string) : string :=
  match s with
  | EmptyString => EmptyString
  | String c r =>
      if is_whitespace c then trim_start_rev r else
      match r with
      | EmptyString => s
      | String c1 r1 =>
          if is_whitespace2 c1 c then trim_start_rev r1 else
          match r1 with
          | EmptyString => s
          | String c2 r2 => if is_whitespace3 c2 c1 c then trim_start_rev r2 else s
          end
      end
  end.

Definition trim (s : string) : string :=
  rev_string (trim_start_rev (rev_string (trim_start s) EmptyString)) EmptyString.

Fixpoint digits_value (s : string) (acc : N) : option N :=
  match s with
  | EmptyString => Some acc
  | String c r =>
      let n := N_of_ascii c in
      if (48 <=? n) && (n <=? 57) then digits_value r (10 * acc + (n - 48)) else None
  end.

(** [<uN as FromStr>::from_str]: an optional leading '+', then at least one
    decimal digit; a value of [2^bits] or more is an overflow error.  The
    accumulated value only grows, so checking the final value is the same
    as Rust's digit-by-digit checked arithmetic. *)
Definition parse_uint (bits : N) (s : string) : option N :=
  let digits := match s with String "+"%char r => r | _ => s end in
  match digits with
  | EmptyString => None
  | _ =>
      match digits_value digits 0 with
      | Some v => if v <? 2 ^ bits then Some v else None
      | None => None
      end
  end.

Definition parse_u32 : string -> option N := parse_uint 32.
(** [usize] on the 64-bit targets the host runs on. *)
Definition parse_usize : string -> option N := parse_uint 64.
(** [<String as FromStr>::from_str] never fails. *)
Definition parse_string : string -> option string := Some.

(** [s.split('/').next()]: the text before the first '/' (always [Some]). *)
Fixpoint split_first (sep : ascii) (s : string) : string :=
  match s with
  | EmptyString => EmptyString
  | String c r => if Ascii.eqb c sep then EmptyString else String c (split_first sep r)
  end.

End RustStr.

(** ** src/moonshine/src/rtsp.rs *)
Module Rtsp.
Local Open Scope string_scope.

Module StatusCode.
Inductive t := Ok | BadRequest | InternalServerError.
End StatusCode.

Inductive Version := V1_0 | V2_0.

(** [rtsp_types::headers::Transport]: an RTP transport, or any other
    transport specification (kept as text). *)
Inductive Transport :=
| Rtp (spec : string)
| Other (spec : string).

(** The request URI, with its query pairs as [Url::query_pairs] decodes them. *)
Record Url := { query_pairs : list (string * string) }.

Record Request := {
  version : Version;
  request_uri : option Url;
  (** [request.typed_header::<Transports>()]: a parse error, no header, or
      the list of transports. *)
  transports : result (option (list Transport));
  body : list N;
}.

Record Response := {
  rversion : Version;
  status : StatusCode.t;
  headers : list (string * string);
  rbody : list N;
}.

Record StreamPortConfig := { port : N }.
Record StreamConfig := {
  video : StreamPortConfig;
  audio : StreamPortConfig;
  control : StreamPortConfig;
}.
Record Config := { stream : StreamConfig }.

Definition rtsp_response (cseq : Z) (version : Version) (status : StatusCode.t) : Response :=
  {| rversion := version; status := status; headers := [("CSeq", pretty cseq)]; rbody := [] |}.

Definition handle_setup_request (config : Config) (request : Request) (cseq : Z) : Response :=
  let bad := rtsp_response cseq (version request) StatusCode.BadRequest in
  match transports request with
  | Err _ => bad
  | Ok None => bad
  | Ok (Some transports) =>
  match head transports with
  | Some (Other _transport) =>
      match request_uri request with
      | None => bad
      | Some request_uri =>
      match head (query_pairs request_uri) with
      | None => bad
      | Some query =>
      if negb (String.eqb (fst query) "streamid") then bad else
      (* Example query: streamid=control/13/0 *)
      let stream_id := RustStr.split_first "/" (snd query) in
      let port_of :=
        if String.eqb stream_id "video" then Some (port (video (stream config)))
        else if String.eqb stream_id "audio" then Some (port (audio (stream config)))
        else if String.eqb stream_id "control" then Some (port (control (stream config)))
        else None in
      match port_of with
      | None => bad
      | Some port =>
          {| rversion := version request; status := StatusCode.Ok;
             headers := [("CSeq", pretty cseq);
                         ("Session", "MoonshineSession;timeout = 90");
                         ("Transport", sappend "server_port=" (pretty port))];
             rbody := [] |}
      end end end
  | Some (Rtp _) => bad
  | None => bad
  end
  end.

(** An SDP session ([sdp_types::Session]) as far as the handler reads it:
    its attribute lines in order, each a name and an optional value. *)
Record SdpSession := { attributes : list (string * option string) }.

(** [Session::get_first_attribute_value]: the value of the first attribute
    with that name, or [AttributeNotFoundError]. *)
Fixpoint first_attribute_value (attrs : list (string * option string)) (name : string)
    : result (option string) :=
  match attrs with
  | [] => Err "AttributeNotFoundError"
  | (n, v) :: rest => if String.eqb n name then Ok v else first_attribute_value rest name
  end.

Definition get_first_attribute_value (sdp_session : SdpSession) (name : string)
    : result (option string) :=
  first_attribute_value (attributes sdp_session) name.

(** [get_sdp_attribute::<F>]: look the attribute up, trim it and parse it
    with [F]'s [FromStr]. *)
Definition get_sdp_attribute {F : Type} (parse : string -> option F)
    (sdp_session : SdpSession) (attribute : string) : option F :=
  match get_first_attribute_value sdp_session attribute with
  | Err _ => None
  | Ok None => None
  | Ok (Some value) => parse (RustStr.trim value)
  end.

Record VideoStreamContext := {
  width : N;                (* u32 *)
  height : N;               (* u32 *)
  fps : N;                  (* u32 *)
  packet_size : N;          (* usize *)
  bitrate : N;              (* usize *)
  minimum_fec_packets : N;  (* u32 *)
  vqos : bool;
}.

Record AudioStreamContext := {
  packet_duration : N;      (* u32 *)
  aqos : bool;
}.

(** [bitrate *= 1024] on a 64-bit [usize], in the release profile the
    server is built with (overflow checks off: the product wraps). *)
Definition usize_mul (a b : N) : N := (a * b) mod 2 ^ 64.

(** What one ANNOUNCE does: the response, and the [SetStreamContext]
    command it delivers to the session manager, if any. *)
Record AnnounceOutcome := {
  response : Response;
  set_stream_context : option (VideoStreamContext * AudioStreamContext);
}.

Definition no_push (r : Response) : AnnounceOutcome :=
  {| response := r; set_stream_context := None |}.

Section Announce.
(** [sdp_types::Session::parse] of the request body. *)
Variable sdp_parse : list N -> result SdpSession.
(** Whether the session manager's command channel is still open, so that
    [session_manager.set_stream_context(..)] succeeds. *)
Variable manager_open : bool.

Definition handle_announce_request (request : Request) (cseq : Z) : AnnounceOutcome :=
  let bad := no_push (rtsp_response cseq (version request) StatusCode.BadRequest) in
  match sdp_parse (body request) with
  | Err _ => bad
  | Ok sdp_session =>
  match get_sdp_attribute RustStr.parse_u32 sdp_session "x-nv-video[0].clientViewportWd" with
  | None => bad | Some width =>
  match get_sdp_attribute RustStr.parse_u32 sdp_session "x-nv-video[0].clientViewportHt" with
  | None => bad | Some height =>
  match get_sdp_attribute RustStr.parse_u32 sdp_session "x-nv-video[0].maxFPS" with
  | None => bad | Some fps =>
  match get_sdp_attribute RustStr.parse_usize sdp_session "x-nv-video[0].packetSize" with
  | None => bad | Some packet_size =>
  match get_sdp_attribute RustStr.parse_usize sdp_session "x-nv-vqos[0].bw.maximumBitrateKbps" with
  | None => bad | Some bitrate =>
  let bitrate := usize_mul bitrate 1024 in (* Convert from kbps to bps. *)
  match get_sdp_attribute RustStr.parse_u32 sdp_session "x-nv-vqos[0].fec.minRequiredFecPackets" with
  | None => bad | Some minimum_fec_packets =>
  match get_sdp_attribute RustStr.parse_string sdp_session "x-nv-vqos[0].qosTrafficType" with
  | None => bad | Some video_qos_type =>
  let video_stream_context :=
    {| width := width; height := height; fps := fps; packet_size := packet_size;
       bitrate := bitrate; minimum_fec_packets := minimum_fec_packets;
       vqos := negb (String.eqb video_qos_type "0") |} in
  match get_sdp_attribute RustStr.parse_u32 sdp_session "x-nv-aqos.packetDuration" with
  | None => bad | Some packet_duration =>
  match get_sdp_attribute RustStr.parse_string sdp_session "x-nv-aqos.qosTrafficType" with
  | None => bad | Some audio_qos_type =>
  let audio_stream_context :=
    {| packet_duration := packet_duration; aqos := negb (String.eqb audio_qos_type "0") |} in
  let pushed := Some (video_stream_context, audio_stream_context) in
  if manager_open then
    {| response := {| rversion := version request; status := StatusCode.Ok;
                      headers := [("CSeq", pretty cseq)]; rbody := [] |};
       set_stream_context := pushed |}
  else
    (* the send fails: the command is handed back, never delivered *)
    no_push (rtsp_response cseq (version request) StatusCode.InternalServerError)
  end end end end end end end end end
  end.
End Announce.

(** The SDP attributes ANNOUNCE reads, in the order it reads them. *)
Definition announce_attributes : list string :=
  ["x-nv-video[0].clientViewportWd"; "x-nv-video[0].clientViewportHt";
   "x-nv-video[0].maxFPS"; "x-nv-video[0].packetSize";
   "x-nv-vqos[0].bw.maximumBitrateKbps"; "x-nv-vqos[0].fec.minRequiredFecPackets";
   "x-nv-vqos[0].qosTrafficType"; "x-nv-aqos.packetDuration"; "x-nv-aqos.qosTrafficType"].

End Rtsp.

(** ** src/src/session/manager.rs: the session manager actor *)
Module Manager.
Section Manager.
(** The session and stream types live outside src/; only the calls the
    manager makes on them matter here. *)
Variables (Session SessionContext SessionKeys : Type).
Variables (VideoStreamContext AudioStreamContext : Type).
(** [Session::new(config.clone(), session_context, enet.clone(), stop_signal.clone())] *)
Variable session_new : SessionContext -> result Session.
Variable get_context : Session -> SessionContext.
Variable is_running : Session -> bool.
(** The awaited [&mut self] calls whose results the manager ignores; each
    leaves the session in some new state. *)
Variable start_stream : Session -> VideoStreamContext -> AudioStreamContext -> Session.
Variable stop_stream : Session -> Session.
Variable update_keys : Session -> SessionKeys -> Session.

Inductive SessionManagerCommand :=
| SetStreamContext (v : VideoStreamContext) (a : AudioStreamContext)
| GetSessionContext
| InitializeSession (ctx : SessionContext)
| StartSession
| StopSession
| UpdateKeys (keys : SessionKeys).

(** One wake-up of the [tokio::select!] loop. *)
Inductive Event :=
| ShutdownTriggered
| Command (c : SessionManagerCommand)
| ChannelClosed.

Record SessionManagerInner := {
  session : option Session;
  video_stream_context : option VideoStreamContext;
  audio_stream_context : option AudioStreamContext;
}.

Definition default_inner : SessionManagerInner :=
  {| session := None; video_stream_context := None; audio_stream_context := None |}.

(** What the manager does besides updating its state: calling
    [Session::new], and replying to [GetSessionContext]. *)
Inductive Effect :=
| NewSession (ctx : SessionContext)
| ContextReply (reply : option SessionContext).

Definition with_session (self : SessionManagerInner) (s : option Session) : SessionManagerInner :=
  {| session := s; video_stream_context := video_stream_context self;
     audio_stream_context := audio_stream_context self |}.

(** One iteration of [SessionManagerInner::run]; [None] when the loop breaks. *)
Definition step (self : SessionManagerInner) (ev : Event)
    : option (SessionManagerInner * list Effect) :=
  match ev with
  | ShutdownTriggered => Some (with_session self None, [])
  | ChannelClosed => None
  | Command command =>
    match command with
    | SetStreamContext v a =>
        match session self with
        | None => Some (self, [])
        | Some s =>
            Some ({| session := Some s; video_stream_context := Some v;
                     audio_stream_context := Some a |}, [])
        end
    | GetSessionContext =>
        Some (self, [ContextReply (option_map get_context (session self))])
    | InitializeSession session_context =>
        match session self with
        | Some _ => Some (self, [])
        | None =>
            match session_new session_context with
            | Ok s => Some (with_session self (Some s), [NewSession session_context])
            | Err _ => Some (self, [NewSession session_context])
            end
        end
    | StartSession =>
        match session self with
        | None => Some (self, [])
        | Some s =>
            if is_running s then Some (self, []) else
            match video_stream_context self, audio_stream_context self with
            | Some v, Some a => Some (with_session self (Some (start_stream s v a)), [])
            | _, _ => Some (self, [])
            end
        end
    | StopSession =>
        match session self with
        | Some s => let _stopped := stop_stream s in (* then dropped *)
                    Some (with_session self None, [])
        | None => Some (self, [])
        end
    | UpdateKeys keys =>
        match session self with
        | None => Some (self, [])
        | Some s => Some (with_session self (Some (update_keys s keys)), [])
        end
    end
  end.

(** Running a sequence of events; [None] once the loop has exited. *)
Fixpoint run (self : SessionManagerInner) (evs : list Event) : option SessionManagerInner :=
  match evs with
  | [] => Some self
  | ev :: rest =>
      match step self ev with
      | None => None
      | Some (self', _) => run self' rest
      end
  end.

End Manager.
End Manager.

(** ** src/src/session/stream/video/mod.rs *)
Module Video.

(** *** The packet channel [mpsc::channel::<Vec<u8>>(1024)]

    A tokio bounded channel: a FIFO of at most [capacity] messages, and
    whether its receiver still exists.  The sender side offers [send]
    (async, waits while full), [blocking_send] (blocks the thread while
    full) and [try_send] (fails with [Full]); no sender operation removes a
    queued message.  Once the receiver is dropped the channel is closed:
    every sender operation fails with a [Closed] error handing the message
    back, whatever the queue's length. *)
Record Channel := {
  capacity : nat;
  queue : list (list N);
  receiver_open : bool;
}.

Definition packet_channel : Channel := {| capacity := 1024; queue := []; receiver_open := true |}.

Inductive SendOp := Send | BlockingSend | TrySend.

Inductive SendOutcome :=
| Enqueued (ch : Channel)
| Waiting                     (* [send]/[blocking_send] on a full channel *)
| Full                        (* [try_send] on a full channel *)
| Closed (p : list N).        (* any operation once the receiver is gone *)

Definition sender_enqueue (op : SendOp) (ch : Channel) (p : list N) : SendOutcome :=
  if negb (receiver_open ch) then Closed p else
  if Nat.ltb (length (queue ch)) (capacity ch) then
    Enqueued {| capacity := capacity ch; queue := queue ch ++ [p]; receiver_open := true |}
  else match op with
       | Send | BlockingSend => Waiting
       | TrySend => Full
       end.

(** [packet_rx.recv()]: the oldest message first. *)
Definition receiver_dequeue (ch : Channel) : option (list N * Channel) :=
  match queue ch with
  | [] => None
  | p :: rest => Some (p, {| capacity := capacity ch; queue := rest; receiver_open := receiver_open ch |})
  end.

(** Dropping [packet_rx], as the socket task does when its loop ends: the
    channel is closed and the messages still queued are dropped with it. *)
Definition drop_receiver (ch : Channel) : Channel :=
  {| capacity := capacity ch; queue := []; receiver_open := false |}.

(** *** The socket task *)
Section Sender.
Variable SocketAddr : Type.

(** One wake-up of the task's [tokio::select!]. *)
Inductive SocketEvent :=
| Dequeued (packet : list N)              (* [packet_rx.recv()] gave [Some] *)
| PacketChannelClosed                     (* [packet_rx.recv()] gave [None] *)
| Received (datagram : list N) (address : SocketAddr)
| RecvError.

Record SenderState := {
  client_address : option SocketAddr;
  running : bool;
}.

Definition sender_init : SenderState := {| client_address := None; running := true |}.

Definition PING : list N := [80; 73; 78; 71].

Fixpoint bytes_eqb (a b : list N) : bool :=
  match a, b with
  | [], [] => true
  | x :: a', y :: b' => N.eqb x y && bytes_eqb a' b'
  | _, _ => false
  end.

(** One iteration; the packets handed to [socket.send_to] (whether or not
    the send then fails, which is only logged). *)
Definition sender_step (st : SenderState) (ev : SocketEvent)
    : SenderState * list (SocketAddr * list N) :=
  if negb (running st) then (st, []) else
  match ev with
  | Dequeued packet =>
      match client_address st with
      | Some client_address => (st, [(client_address, packet)])
      | None => (st, [])
      end
  | PacketChannelClosed => ({| client_address := client_address st; running := false |}, [])
  | Received datagram address =>
      (* [socket.recv_from(&mut buf)] with [buf = [0; 1024]]: longer
         datagrams are truncated to the buffer. *)
      let received := firstn 1024 datagram in
      if bytes_eqb received PING then
        ({| client_address := Some address; running := true |}, [])
      else (st, [])
  | RecvError => ({| client_address := client_address st; running := false |}, [])
  end.

Fixpoint sender_run (st : SenderState) (evs : list SocketEvent)
    : SenderState * list (SocketAddr * list N) :=
  match evs with
  | [] => (st, [])
  | ev :: rest =>
      let '(st1, out1) := sender_step st ev in
      let '(st2, out2) := sender_run st1 rest in
      (st2, out1 ++ out2)
  end.

(** The source address of the most recent datagram whose payload is
    exactly [PING], if any (the spec's view of the discovered address). *)
Fixpoint last_ping (evs : list SocketEvent) : option SocketAddr :=
  match evs with
  | [] => None
  | ev :: rest =>
      match last_ping rest with
      | Some a => Some a
      | None =>
          match ev with
          | Received d a => if bytes_eqb d PING then Some a else None
          | _ => None
          end
      end
  end.

Definition stops (ev : SocketEvent) : bool :=
  match ev with PacketChannelClosed | RecvError => true | _ => false end.

End Sender.

(** *** The command loop of [VideoStreamInner::run] *)
Record VideoStreamContext := {
  width : N;
  height : N;
  fps : N;
  packet_size : N;
  bitrate : N;
  minimum_fec_packets : N;
  qos : bool;
  video_format : N;
}.

Inductive VideoStreamCommand := Start | RequestIdrFrame.

(** The results of the fallible calls one [Start] makes, in program order. *)
Record StartEnv := {
  cuda_device_new : result unit;                (* CudaDevice::new(0) *)
  frame_capturer_new : result unit;             (* FrameCapturer::new() *)
  capturer_status : result (N * N);             (* capturer.status(): screen w, h *)
  encoder_new : result unit;                    (* Encoder::new(..) *)
  create_capture_buffer : result unit;          (* create_frame(..) *)
  create_intermediate_buffer : result unit;
  create_encoder_buffer : result unit;
  spawn_capture_thread : result unit;           (* thread::Builder::spawn *)
  spawn_encode_thread : result unit;
}.

Inductive Worker := CaptureThread | EncodeThread.

Record LoopState := {
  started_streaming : bool;
  context : VideoStreamContext;
}.

Inductive LoopOutcome :=
| Continue (st : LoopState) (spawned : list Worker)
| Exit (r : result unit).                 (* [run] returns through [?] *)

Definition with_screen (c : VideoStreamContext) (w h : N) : VideoStreamContext :=
  {| width := w; height := h; fps := fps c; packet_size := packet_size c;
     bitrate := bitrate c; minimum_fec_packets := minimum_fec_packets c;
     qos := qos c; video_format := video_format c |}.

(** One command; [idr_send] is the result of [idr_frame_request_tx.send(())]. *)
Definition command_step (st : LoopState) (command : VideoStreamCommand)
    (env : StartEnv) (idr_send : result unit) : LoopOutcome :=
  match command with
  | RequestIdrFrame =>
      match idr_send with
      | Ok _ => Continue st []
      | Err e => Exit (Err e)
      end
  | Start =>
      if started_streaming st then Continue st [] (* Can't start streaming twice. *) else
      match cuda_device_new env with Err e => Exit (Err e) | Ok _ =>
      match frame_capturer_new env with Err e => Exit (Err e) | Ok _ =>
      match capturer_status env with Err e => Exit (Err e) | Ok (w, h) =>
      let ctx := context st in
      let ctx := if negb (N.eqb w (width ctx)) || negb (N.eqb h (height ctx))
                 then with_screen ctx w h else ctx in
      match encoder_new env with Err e => Exit (Err e) | Ok _ =>
      match create_capture_buffer env with Err e => Exit (Err e) | Ok _ =>
      match create_intermediate_buffer env with Err e => Exit (Err e) | Ok _ =>
      match create_encoder_buffer env with Err e => Exit (Err e) | Ok _ =>
      match spawn_capture_thread env with
      | Err _ => Continue {| started_streaming := false; context := ctx |} []
      | Ok _ =>
      match spawn_encode_thread env with
      | Err _ => Continue {| started_streaming := false; context := ctx |} [CaptureThread]
      | Ok _ => Continue {| started_streaming := true; context := ctx |} [CaptureThread; EncodeThread]
      end end end end end end end end end
  end.

(** Running a sequence of commands; the workers spawned along the way. *)
Fixpoint command_run (st : LoopState) (cmds : list (VideoStreamCommand * StartEnv * result unit))
    : LoopOutcome :=
  match cmds with
  | [] => Continue st []
  | (command, env, idr_send) :: rest =>
      match command_step st command env idr_send with
      | Exit r => Exit r
      | Continue st1 w1 =>
          match command_run st1 rest with
          | Exit r => Exit r
          | Continue st2 w2 => Continue st2 (w1 ++ w2)
          end
      end
  end.

Definition is_ok {A : Type} (r : result A) : bool :=
  match r with Ok _ => true | Err _ => false end.

(** Whether every fallible call a [Start] makes before spawning its
    threads succeeds: the CUDA device, the capturer and its status, the
    encoder and the three frames. *)
Definition start_prepared (env : StartEnv) : bool :=
  is_ok (cuda_device_new env) && is_ok (frame_capturer_new env) && is_ok (capturer_status env) &&
  is_ok (encoder_new env) && is_ok (create_capture_buffer env) &&
  is_ok (create_intermediate_buffer env) && is_ok (create_encoder_buffer env).

End Video.

(** ** The connection handler of src/moonshine/src/rtsp.rs *)
Module RtspServer.
Import Rtsp.
Local Open Scope string_scope.

(** [<i32 as FromStr>::from_str]: an optional sign, then at least one
    decimal digit; the value must lie in [-2^31, 2^31). *)
Definition parse_i32 (s : string) : option Z :=
  let '(neg, digits) :=
    match s with
    | String "-"%char r => (true, r)
    | String "+"%char r => (false, r)
    | _ => (false, s)
    end in
  match digits with
  | EmptyString => None
  | _ =>
      match RustStr.digits_value digits 0 with
      | None => None
      | Some v =>
          let z := if neg then Z.opp (Z.of_N v) else Z.of_N v in
          if Z.leb (- 2 ^ 31) z && Z.ltb z (2 ^ 31) then Some z else None
      end
  end.

(** [std::str::from_utf8]: a byte string is accepted when it is well-formed
    UTF-8 (no overlong forms, no surrogates, nothing above U+10FFFF); the
    text keeps the bytes as they are. *)
Definition in_range (lo hi b : N) : bool := N.leb lo b && N.leb b hi.
Definition cont (b : N) : bool := in_range 128 191 b.

Fixpoint utf8_valid (bs : list N) : bool :=
  match bs with
  | [] => true
  | b :: r =>
    if N.ltb b 128 then utf8_valid r else
    match r with
    | [] => false
    | b1 :: r1 =>
      if in_range 194 223 b then cont b1 && utf8_valid r1 else
      match r1 with
      | [] => false
      | b2 :: r2 =>
        if N.eqb b 224 then in_range 160 191 b1 && cont b2 && utf8_valid r2
        else if in_range 225 236 b || in_range 238 239 b then cont b1 && cont b2 && utf8_valid r2
        else if N.eqb b 237 then in_range 128 159 b1 && cont b2 && utf8_valid r2
        else
        match r2 with
        | [] => false
        | b3 :: r3 =>
          if N.eqb b 240 then in_range 144 191 b1 && cont b2 && cont b3 && utf8_valid r3
          else if in_range 241 243 b then cont b1 && cont b2 && cont b3 && utf8_valid r3
          else if N.eqb b 244 then in_range 128 143 b1 && cont b2 && cont b3 && utf8_valid r3
          else false
        end
      end
    end
  end.

Fixpoint string_of_bytes (bs : list N) : string :=
  match bs with
  | [] => EmptyString
  | b :: r => String (ascii_of_N b) (string_of_bytes r)
  end.

Definition from_utf8 (bs : list N) : option string :=
  if utf8_valid bs then Some (string_of_bytes bs) else None.

(** [str::replace] for a non-empty pattern: every non-overlapping
    occurrence of [from], scanning left to right, is replaced by [to].
    [skip] counts the characters of a match already replaced. *)
Fixpoint replace_go (from to : string) (skip : nat) (s : string) : string :=
  match s with
  | EmptyString => EmptyString
  | String c r =>
      match skip with
      | S k => replace_go from to k r
      | O =>
          if String.prefix from s
          then sappend to (replace_go from to (String.length from - 1) r)
          else String c (replace_go from to O r)
      end
  end.

Definition replace (s from to : string) : string := replace_go from to O s.

(** The rewrite applied to the buffered text before every parse attempt
    ("Hacky workaround to fix rtsp_types parsing SETUP/PLAY requests from
    Moonlight"). *)
Definition rewrite_request (message_buffer : string) : string :=
  let message_buffer := replace message_buffer "streamid" "rtsp://localhost?streamid" in
  replace message_buffer "PLAY /" "PLAY rtsp://localhost/".

(** [rtsp_types::Method]; the methods the server does not serve are kept
    by name. *)
Inductive Method :=
| Announce | Describe | Options | Setup | Play
| OtherMethod (name : string).

(** A parsed request: its method, its CSeq header (as text) and the parts
    the handlers read. *)
Record RequestMessage := {
  method : Method;
  cseq_header : option string;
  request : Request;
}.

(** [rtsp_types::Message]: a request, or a response or interleaved data. *)
Inductive Message :=
| MRequest (r : RequestMessage)
| MResponse
| MData.

(** [rtsp_types::Message::parse]. *)
Inductive ParseResult :=
| Parsed (m : Message)
| Incomplete
| ParseError.

(** One [connection.read(&mut buffer)]: an I/O error or the bytes read
    (none at end of stream). *)
Inductive ReadResult :=
| ReadFailed
| ReadBytes (bytes : list N).

(** How [handle_connection] ends: still reading when the reads run out,
    returning [Ok(())] or [Err(())] without a response, or with a response
    built and handed to [write_all]. *)
Inductive ConnectionOutcome :=
| AwaitingData
| ClosedOk
| ClosedErr
| Responded (response : Response).

Definition handle_options_request (request : Request) (cseq : Z) : Response :=
  {| rversion := version request; status := StatusCode.Ok;
     headers := [("CSeq", pretty cseq); ("Public", "OPTIONS DESCRIBE SETUP PLAY")];
     rbody := [] |}.

(** [described] is the outcome of [self.description()] (parsing the fixed
    SDP text), [description.write(&mut buffer)] and [String::from_utf8] of
    the buffer: the buffer, or the first failure. *)
Definition handle_describe_request (described : result (list N)) (request : Request) (cseq : Z)
    : Response :=
  match described with
  | Err _ => rtsp_response cseq (version request) StatusCode.InternalServerError
  | Ok buffer =>
      {| rversion := version request; status := StatusCode.Ok;
         headers := [("CSeq", pretty cseq)]; rbody := buffer |}
  end.

(** [session_manager.start_session()] fails only when the manager's
    command channel is closed. *)
Definition handle_play_request (manager_open : bool) (request : Request) (cseq : Z) : Response :=
  if manager_open then
    {| rversion := version request; status := StatusCode.Ok;
       headers := [("CSeq", pretty cseq)]; rbody := [] |}
  else rtsp_response cseq (version request) StatusCode.InternalServerError.

Section Connection.
Variable config : Config.
Variable message_parse : string -> ParseResult.
Variable sdp_parse : list N -> result SdpSession.
Variable manager_open : bool.
Variable described : result (list N).

(** The response [handle_connection] builds for a parsed message. *)
Definition respond (message : Message) : ConnectionOutcome :=
  match message with
  | MRequest r =>
      match cseq_header r with
      | None => ClosedErr
      | Some h =>
      match parse_i32 h with
      | None => ClosedErr
      | Some cseq =>
          let request := request r in
          Responded
            match method r with
            | Announce => response (handle_announce_request sdp_parse manager_open request cseq)
            | Describe => handle_describe_request described request cseq
            | Options => handle_options_request request cseq
            | Setup => handle_setup_request config request cseq
            | Play => handle_play_request manager_open request cseq
            | OtherMethod _ => rtsp_response cseq (version request) StatusCode.BadRequest
            end
      end end
  | MResponse | MData => Responded (rtsp_response 0 V2_0 StatusCode.BadRequest)
  end.

(** The read loop: [message_buffer] holds the text read so far; each
    read is checked as UTF-8 on its own and appended, and the parser sees
    the rewritten buffer. *)
Fixpoint handle_connection_from (message_buffer : string) (reads : list ReadResult)
    : ConnectionOutcome :=
  match reads with
  | [] => AwaitingData
  | ReadFailed :: _ => ClosedErr
  | ReadBytes [] :: _ => ClosedOk (* "Received empty RTSP request." *)
  | ReadBytes bytes :: rest =>
      match from_utf8 bytes with
      | None => ClosedErr
      | Some text =>
          let message_buffer := sappend message_buffer text in
          match message_parse (rewrite_request message_buffer) with
          | Parsed message => respond message
          | Incomplete => handle_connection_from message_buffer rest
          | ParseError => ClosedErr
          end
      end
  end.

Definition handle_connection (reads : list ReadResult) : ConnectionOutcome :=
  handle_connection_from EmptyString reads.

End Connection.
End RtspServer.

(** ** Concrete inputs used by the examples below *)
Module Fixtures.
Local Open Scope string_scope.

(** A registry whose every call succeeds except the final hash check. *)
Definition cm_check_fails : Clients.ClientManager unit :=
  {| Clients.start_pairing := fun _ => Ok tt;
     Clients.client_challenge := fun _ _ => Ok [];
     Clients.server_challenge_response := fun _ _ => Ok [];
     Clients.add_client := fun _ => Ok tt;
     Clients.check_client_pairing_secret := fun _ _ => Err "client hash mismatch" |}.

(** A registry whose every call fails. *)
Definition cm_all_fail : Clients.ClientManager unit :=
  {| Clients.start_pairing := fun _ => Err "pairing in progress";
     Clients.client_challenge := fun _ _ => Err "no pending client";
     Clients.server_challenge_response := fun _ _ => Err "no pending client";
     Clients.add_client := fun _ => Err "no pending client";
     Clients.check_client_pairing_secret := fun _ _ => Err "client hash mismatch" |}.

(** The pairing handler with the certificate as a unit value and fixed
    renderings for the library formatting. *)
Definition handle_pair_request : gmap string string -> unit -> Clients.ClientManager unit -> Http.Response :=
  Pairing.handle_pair_request unit (fun _ => Err "invalid PEM") (fun _ => Ok [])
    (fun _ => "[..]") (fun _ => "Odd number of digits") (fun _ => "[..]") (fun _ => "{..}").


(** An ANNOUNCE body as Moonlight sends it, with the given packet size and
    maximum bitrate (kbps) attribute values. *)
Definition announce_sdp (packet_size kbps : string) : Rtsp.SdpSession :=
  {| Rtsp.attributes :=
       [("x-nv-video[0].clientViewportWd", Some "1920");
        ("x-nv-video[0].clientViewportHt", Some "1080");
        ("x-nv-video[0].maxFPS", Some "60");
        ("x-nv-video[0].packetSize", Some packet_size);
        ("x-nv-vqos[0].bw.maximumBitrateKbps", Some kbps);
        ("x-nv-vqos[0].fec.minRequiredFecPackets", Some "2");
        ("x-nv-vqos[0].qosTrafficType", Some "5");
        ("x-nv-aqos.packetDuration", Some "5");
        ("x-nv-aqos.qosTrafficType", Some "4")] |}.

(** U+3000 IDEOGRAPHIC SPACE (bytes E3 80 80) followed by "0". *)
Definition ideographic_space_zero : string :=
  String (ascii_of_N 227) (String (ascii_of_N 128) (String (ascii_of_N 128) "0")).

Definition announce_request : Rtsp.Request :=
  {| Rtsp.version := Rtsp.V1_0; Rtsp.request_uri := None;
     Rtsp.transports := Ok None; Rtsp.body := [] |}.

(** ANNOUNCE of [sdp] (the body parses to it), with the manager running. *)
Definition announce (sdp : Rtsp.SdpSession) : Rtsp.AnnounceOutcome :=
  Rtsp.handle_announce_request (fun _ => Ok sdp) true announce_request 3%Z.

Definition rtsp_config : Rtsp.Config :=
  {| Rtsp.stream := {| Rtsp.video := {| Rtsp.port := 47998 |};
                       Rtsp.audio := {| Rtsp.port := 48000 |};
                       Rtsp.control := {| Rtsp.port := 47999 |} |} |}.

(** [SETUP streamid=<query>] with the given transports. *)
Definition setup_request (transports : result (option (list Rtsp.Transport))) (query : string)
    : Rtsp.Request :=
  {| Rtsp.version := Rtsp.V1_0;
     Rtsp.request_uri := Some {| Rtsp.query_pairs := [("streamid", query)] |};
     Rtsp.transports := transports; Rtsp.body := [] |}.


(** A full packet queue, oldest packet [[0]] first. *)
Definition full_queue : list (list N) := map (fun i => [N.of_nat i]) (seq 0 1024).

(** A [Start] whose every call succeeds, on a 1920x1080 screen. *)
Definition ok_env : Video.StartEnv :=
  {| Video.cuda_device_new := Ok tt; Video.frame_capturer_new := Ok tt; Video.capturer_status := Ok (1920, 1080);
     Video.encoder_new := Ok tt; Video.create_capture_buffer := Ok tt; Video.create_intermediate_buffer := Ok tt;
     Video.create_encoder_buffer := Ok tt; Video.spawn_capture_thread := Ok tt; Video.spawn_encode_thread := Ok tt |}.

Definition ctx_1080p : Video.VideoStreamContext :=
  {| Video.width := 1920; Video.height := 1080; Video.fps := 60; Video.packet_size := 1024;
     Video.bitrate := 20480000; Video.minimum_fec_packets := 2; Video.qos := false;
     Video.video_format := 0 |}.

(** A [Start] that gets as far as the encode thread, whose spawn fails. *)
Definition encode_spawn_fails_env : Video.StartEnv :=
  {| Video.cuda_device_new := Ok tt; Video.frame_capturer_new := Ok tt; Video.capturer_status := Ok (1920, 1080);
     Video.encoder_new := Ok tt; Video.create_capture_buffer := Ok tt; Video.create_intermediate_buffer := Ok tt;
     Video.create_encoder_buffer := Ok tt; Video.spawn_capture_thread := Ok tt;
     Video.spawn_encode_thread := Err "Resource temporarily unavailable" |}.

(** A [Start] on a 2560x1440 screen whose encoder cannot be created. *)
Definition encoder_fails_env : Video.StartEnv :=
  {| Video.cuda_device_new := Ok tt; Video.frame_capturer_new := Ok tt; Video.capturer_status := Ok (2560, 1440);
     Video.encoder_new := Err "Failed to open encoder"; Video.create_capture_buffer := Ok tt;
     Video.create_intermediate_buffer := Ok tt; Video.create_encoder_buffer := Ok tt;
     Video.spawn_capture_thread := Ok tt; Video.spawn_encode_thread := Ok tt |}.

(** A successful [Start] on a 2560x1440 screen. *)
Definition screen_1440p_env : Video.StartEnv :=
  {| Video.cuda_device_new := Ok tt; Video.frame_capturer_new := Ok tt; Video.capturer_status := Ok (2560, 1440);
     Video.encoder_new := Ok tt; Video.create_capture_buffer := Ok tt; Video.create_intermediate_buffer := Ok tt;
     Video.create_encoder_buffer := Ok tt; Video.spawn_capture_thread := Ok tt; Video.spawn_encode_thread := Ok tt |}.

(** Query parameters of [/pair] requests from a client with uniqueid [client]. *)
Definition challenge_params : gmap string string :=
  <[ "uniqueid" := "client" ]> {[ "clientchallenge" := "0AfF" ]}.
Definition server_response_params : gmap string string :=
  <[ "uniqueid" := "client" ]> {[ "serverchallengeresp" := "E9" ]}.
Definition pairing_secret_params : gmap string string :=
  <[ "uniqueid" := "client" ]> {[ "clientpairingsecret" := "Ab" ]}.
Definition pair_challenge_params : gmap string string :=
  <[ "phrase" := "pairchallenge" ]> {[ "uniqueid" := "client" ]}.
Definition server_cert_params (salt : string) : gmap string string :=
  <[ "phrase" := "getservercert" ]> (<[ "clientcert" := "00" ]>
    (<[ "uniqueid" := "client" ]> {[ "salt" := salt ]})).
Definition salt16 : string := "00112233445566778899aabbccddeeff".

(** An OPTIONS request with the given CSeq header. *)
Definition options_message (cseq : option string) : RtspServer.RequestMessage :=
  {| RtspServer.method := RtspServer.Options; RtspServer.cseq_header := cseq;
     RtspServer.request := announce_request |}.

End Fixtures.

(** * Properties *)

(** ** Pairing responses *)
Module PairingFacts.
Import Http.
Local Open Scope string_scope.

Section PairingFacts.
Variable X509 : Type.
Variable x509_from_pem : list N -> result X509.
Variable x509_to_pem : X509 -> result (list N).
Variable show_keys : gmap string string -> string.
Variable show_hex_error : Hex.FromHexError -> string.
Variable show_bytes : list N -> string.
Variable show_params : gmap string string -> string.

Local Abbreviation handle_pair_request :=
  (Pairing.handle_pair_request X509 x509_from_pem x509_to_pem show_keys show_hex_error show_bytes show_params).

Lemma neq_eqb_false (a b : string) : a <> b -> String.eqb a b = false.
Proof. intros H. destruct (String.eqb_spec a b); congruence. Qed.

Lemma is_Some_decide_true (o : option string) :
  is_Some o -> bool_decide (is_Some o) = true.
Proof. intros H. by apply bool_decide_eq_true_2. Qed.

Lemma is_Some_decide_false (o : option string) :
  o = None -> bool_decide (is_Some o) = false.
Proof. intros ->. apply bool_decide_eq_false_2. intros [x Hx]. discriminate. Qed.

(** C7: a [/pair] request whose [phrase] is neither [getservercert] nor
    [pairchallenge] gets HTTP 400 with body exactly
    "Unknown pair phrase received: <phrase>". *)
Theorem pair_unknown_phrase_bad_request (params : gmap string string) (server_certs : X509)
    (client_manager : Clients.ClientManager X509) (phrase : string) :
  params !! "phrase" = Some phrase ->
  phrase <> "getservercert" -> phrase <> "pairchallenge" ->
  status (handle_pair_request params server_certs client_manager) = 400 /\
  body (handle_pair_request params server_certs client_manager)
    = sappend "Unknown pair phrase received: " phrase.
Proof.
  intros Hp Hg Hc. unfold Pairing.handle_pair_request. rewrite Hp.
  rewrite (neq_eqb_false _ _ Hg), (neq_eqb_false _ _ Hc). split; reflexivity.
Qed.

(** The three steps that call the registry after their input has parsed. *)
Lemma client_challenge_failure (params : gmap string string) server_certs
    (client_manager : Clients.ClientManager X509) challenge unique_id bytes e :
  params !! "phrase" = None ->
  params !! "clientchallenge" = Some challenge ->
  params !! "uniqueid" = Some unique_id ->
  Hex.decode challenge = inl bytes ->
  Clients.client_challenge _ client_manager unique_id bytes = Err e ->
  handle_pair_request params server_certs client_manager
    = bad_request (sappend "Failed to process client challenge: " e).
Proof.
  intros Hp Hc Hu Hd Hm. unfold Pairing.handle_pair_request. rewrite Hp.
  rewrite is_Some_decide_true by (rewrite Hc; eauto).
  unfold Pairing.client_challenge. rewrite Hu.
  rewrite lookup_delete_ne by (intro; discriminate). rewrite Hc, Hd, Hm. reflexivity.
Qed.

Lemma server_challenge_response_failure (params : gmap string string) server_certs
    (client_manager : Clients.ClientManager X509) resp unique_id bytes e :
  params !! "phrase" = None ->
  params !! "clientchallenge" = None ->
  params !! "serverchallengeresp" = Some resp ->
  params !! "uniqueid" = Some unique_id ->
  Hex.decode resp = inl bytes ->
  Clients.server_challenge_response _ client_manager unique_id bytes = Err e ->
  handle_pair_request params server_certs client_manager
    = bad_request "Failed to process server challenge response".
Proof.
  intros Hp Hc Hs Hu Hd Hm. unfold Pairing.handle_pair_request. rewrite Hp.
  rewrite (is_Some_decide_false _ Hc).
  rewrite is_Some_decide_true by (rewrite Hs; eauto).
  unfold Pairing.server_challenge_response. rewrite Hs, Hd.
  rewrite lookup_delete_ne by (intro; discriminate). rewrite Hu, Hm. reflexivity.
Qed.

Lemma client_pairing_secret_failure (params : gmap string string) server_certs
    (client_manager : Clients.ClientManager X509) secret unique_id bytes e :
  params !! "phrase" = None ->
  params !! "clientchallenge" = None ->
  params !! "serverchallengeresp" = None ->
  params !! "clientpairingsecret" = Some secret ->
  params !! "uniqueid" = Some unique_id ->
  Hex.decode secret = inl bytes ->
  Clients.check_client_pairing_secret _ client_manager unique_id bytes = Err e ->
  handle_pair_request params server_certs client_manager
    = bad_request "Failed to check client pairing secret".
Proof.
  intros Hp Hc Hs Hq Hu Hd Hm. unfold Pairing.handle_pair_request. rewrite Hp.
  rewrite (is_Some_decide_false _ Hc), (is_Some_decide_false _ Hs).
  rewrite is_Some_decide_true by (rewrite Hq; eauto).
  unfold Pairing.client_pairing_secret. rewrite Hq, Hd.
  rewrite lookup_delete_ne by (intro; discriminate). rewrite Hu, Hm. reflexivity.
Qed.

(** C2 (amended): a pairing request whose input parses (parameters present,
    hex valid) but whose registry call fails, in the clientchallenge,
    serverchallengeresp or clientpairingsecret step, is answered with HTTP
    400 and an error message, the same status as a request whose input does
    not parse; it gets no status-200 [<paired>0</paired>] reply. *)
Theorem pair_processing_failure_bad_request (params : gmap string string) (server_certs : X509)
    (client_manager : Clients.ClientManager X509) (unique_id : string) (bytes : list N) (e : string) :
  params !! "phrase" = None ->
  params !! "uniqueid" = Some unique_id ->
  (exists c, params !! "clientchallenge" = Some c /\ Hex.decode c = inl bytes /\
     Clients.client_challenge _ client_manager unique_id bytes = Err e) \/
  (params !! "clientchallenge" = None /\
   exists c, params !! "serverchallengeresp" = Some c /\ Hex.decode c = inl bytes /\
     Clients.server_challenge_response _ client_manager unique_id bytes = Err e) \/
  (params !! "clientchallenge" = None /\ params !! "serverchallengeresp" = None /\
   exists c, params !! "clientpairingsecret" = Some c /\ Hex.decode c = inl bytes /\
     Clients.check_client_pairing_secret _ client_manager unique_id bytes = Err e) ->
  exists message,
    handle_pair_request params server_certs client_manager = bad_request message /\
    status (handle_pair_request params server_certs client_manager) = 400.
Proof.
  intros Hp Hu [(c & Hc & Hd & Hm) | [(Hc & c & Hs & Hd & Hm) | (Hc & Hs & c & Hq & Hd & Hm)]].
  - erewrite client_challenge_failure by eauto. eexists; split; reflexivity.
  - erewrite server_challenge_response_failure by eauto. eexists; split; reflexivity.
  - erewrite client_pairing_secret_failure by eauto. eexists; split; reflexivity.
Qed.

End PairingFacts.

Local Open Scope string_scope.

Lemma pair_unknown_phrase_bad_request_witness :
  ({[ "phrase" := "bogus" ]} : gmap string string) !! "phrase" = Some "bogus" /\
  status (Fixtures.handle_pair_request {[ "phrase" := "bogus" ]} tt Fixtures.cm_all_fail) = 400 /\
  body (Fixtures.handle_pair_request {[ "phrase" := "bogus" ]} tt Fixtures.cm_all_fail)
    = "Unknown pair phrase received: bogus".
Proof.
  split; [reflexivity |].
  apply (pair_unknown_phrase_bad_request unit _ _ _ _ _ _ {[ "phrase" := "bogus" ]} tt
           Fixtures.cm_all_fail "bogus"); [reflexivity | discriminate | discriminate].
Defined.

(** A clientpairingsecret request with well-formed input whose hash check
    fails is answered with status 400, not 200. *)
Lemma pair_processing_failure_counterexample :
  Hex.decode "00" = inl [0] /\
  status (Fixtures.handle_pair_request
            (<[ "clientpairingsecret" := "00" ]> {[ "uniqueid" := "client" ]}) tt
            Fixtures.cm_check_fails) = 400 /\
  status (Fixtures.handle_pair_request
            (<[ "clientpairingsecret" := "00" ]> {[ "uniqueid" := "client" ]}) tt
            Fixtures.cm_check_fails) <> 200.
Proof. vm_compute. split; [reflexivity | split; [reflexivity | discriminate]]. Qed.

Lemma pair_processing_failure_bad_request_witness :
  exists message,
    Fixtures.handle_pair_request (<[ "clientpairingsecret" := "00" ]> {[ "uniqueid" := "client" ]}) tt
      Fixtures.cm_check_fails = bad_request message /\
    status (Fixtures.handle_pair_request
              (<[ "clientpairingsecret" := "00" ]> {[ "uniqueid" := "client" ]}) tt
              Fixtures.cm_check_fails) = 400.
Proof.
  apply (pair_processing_failure_bad_request unit _ _ _ _ _ _
           (<[ "clientpairingsecret" := "00" ]> {[ "uniqueid" := "client" ]}) tt
           Fixtures.cm_check_fails "client" [0] "client hash mismatch");
    [reflexivity | reflexivity |].
  right. right. split; [reflexivity | split; [reflexivity |]].
  exists "00". split; [reflexivity | split; reflexivity].
Defined.

End PairingFacts.

(** ** RTSP negotiation *)
Module RtspFacts.
Import Rtsp.
Local Open Scope string_scope.

Lemma first_attribute_value_missing (attrs : list (string * option string)) (name : string) :
  ~ In name (map fst attrs) -> exists e, first_attribute_value attrs name = Err e.
Proof.
  induction attrs as [| [n v] rest IH]; cbn; intros H; [eauto |].
  destruct (String.eqb_spec n name); [tauto |]. apply IH. tauto.
Qed.

Lemma get_sdp_attribute_missing {F : Type} (parse : string -> option F)
    (sdp_session : SdpSession) (attribute : string) :
  ~ In attribute (map fst (attributes sdp_session)) ->
  get_sdp_attribute parse sdp_session attribute = None.
Proof.
  intros H. unfold get_sdp_attribute, get_first_attribute_value.
  destruct (first_attribute_value_missing _ _ H) as [e ->]. reflexivity.
Qed.

Ltac walk_attributes :=
  repeat (cbn -[get_sdp_attribute];
          match goal with
          | |- context [get_sdp_attribute ?p ?s ?a] => destruct (get_sdp_attribute p s a)
          end).

(** C3: an ANNOUNCE whose SDP lacks any one of the nine stream attributes
    is answered 400 BadRequest and pushes no stream context. *)
Theorem announce_missing_attribute_bad_request (sdp_parse : list N -> result SdpSession)
    (manager_open : bool) (request : Request) (cseq : Z) (sdp_session : SdpSession)
    (attribute : string) :
  sdp_parse (body request) = Ok sdp_session ->
  In attribute announce_attributes ->
  ~ In attribute (map fst (attributes sdp_session)) ->
  status (response (handle_announce_request sdp_parse manager_open request cseq))
    = StatusCode.BadRequest /\
  set_stream_context (handle_announce_request sdp_parse manager_open request cseq) = None.
Proof.
  intros Hp Hin Hmiss. unfold handle_announce_request. rewrite Hp.
  cbn [announce_attributes In] in Hin.
  repeat destruct Hin as [<- | Hin]; try contradiction;
    rewrite (get_sdp_attribute_missing _ _ _ Hmiss); walk_attributes;
    try destruct manager_open; split; reflexivity.
Qed.


(** Any pushed bitrate is the parsed kbps value times 1024, modulo 2^64. *)
Lemma announce_bitrate_mod (sdp_parse : list N -> result SdpSession) (manager_open : bool)
    (request : Request) (cseq : Z) (v : VideoStreamContext) (a : AudioStreamContext) :
  set_stream_context (handle_announce_request sdp_parse manager_open request cseq) = Some (v, a) ->
  exists sdp_session kbps,
    sdp_parse (body request) = Ok sdp_session /\
    get_sdp_attribute RustStr.parse_usize sdp_session "x-nv-vqos[0].bw.maximumBitrateKbps" = Some kbps /\
    bitrate v = (kbps * 1024) mod 2 ^ 64.
Proof.
  unfold handle_announce_request.
  destruct (sdp_parse (body request)) as [sdp_session |] eqn:Hp; [| discriminate].
  destruct (get_sdp_attribute RustStr.parse_usize sdp_session "x-nv-vqos[0].bw.maximumBitrateKbps")
    as [kbps |] eqn:Hb; walk_attributes; try discriminate.
  destruct manager_open; cbn; intros H; inversion H; subst; eauto.
Qed.

(** C4: a maximum bitrate of 2^54 kbps is accepted, and the 64-bit product
    with 1024 wraps to a stored bitrate of 0. *)
Lemma announce_bitrate_overflow_wraps :
  get_sdp_attribute RustStr.parse_usize (Fixtures.announce_sdp "1024" "18014398509481984")
    "x-nv-vqos[0].bw.maximumBitrateKbps" = Some 18014398509481984 /\
  status (response (Fixtures.announce (Fixtures.announce_sdp "1024" "18014398509481984")))
    = StatusCode.Ok /\
  option_map (fun va => bitrate (fst va))
    (set_stream_context (Fixtures.announce (Fixtures.announce_sdp "1024" "18014398509481984")))
    = Some 0 /\
  18014398509481984 * 1024 <> 0.
Proof. vm_compute. repeat split; discriminate. Qed.

(** C5: a packet size of 0 is accepted: status Ok, and the pushed context
    has packet size 0. *)
Lemma announce_packet_size_zero_accepted :
  status (response (Fixtures.announce (Fixtures.announce_sdp "0" "20000"))) = StatusCode.Ok /\
  option_map (fun va => packet_size (fst va))
    (set_stream_context (Fixtures.announce (Fixtures.announce_sdp "0" "20000"))) = Some 0.
Proof. vm_compute. split; reflexivity. Qed.

(** C5 (amended): ANNOUNCE does not range-check the packet size.  For
    any SDP body: when the packet size is missing or does not parse as a
    usize the reply is 400 and nothing is pushed; when every attribute
    parses, whatever the packet size [ps] (0 and values above any MTU-safe
    size included), a running manager gets the contexts with packet size
    [ps] and the reply is Ok, and a manager whose channel is closed gets
    nothing and the reply is 500. *)
Theorem announce_packet_size_unchecked (sdp_parse : list N -> result SdpSession) (manager_open : bool)
    (request : Request) (cseq : Z) (sdp : SdpSession) :
  sdp_parse (body request) = Ok sdp ->
  (get_sdp_attribute RustStr.parse_usize sdp "x-nv-video[0].packetSize" = None ->
     handle_announce_request sdp_parse manager_open request cseq
     = no_push (rtsp_response cseq (version request) StatusCode.BadRequest)) /\
  (forall w h fps ps kbps fec video_qos packet_duration audio_qos,
     get_sdp_attribute RustStr.parse_u32 sdp "x-nv-video[0].clientViewportWd" = Some w ->
     get_sdp_attribute RustStr.parse_u32 sdp "x-nv-video[0].clientViewportHt" = Some h ->
     get_sdp_attribute RustStr.parse_u32 sdp "x-nv-video[0].maxFPS" = Some fps ->
     get_sdp_attribute RustStr.parse_usize sdp "x-nv-video[0].packetSize" = Some ps ->
     get_sdp_attribute RustStr.parse_usize sdp "x-nv-vqos[0].bw.maximumBitrateKbps" = Some kbps ->
     get_sdp_attribute RustStr.parse_u32 sdp "x-nv-vqos[0].fec.minRequiredFecPackets" = Some fec ->
     get_sdp_attribute RustStr.parse_string sdp "x-nv-vqos[0].qosTrafficType" = Some video_qos ->
     get_sdp_attribute RustStr.parse_u32 sdp "x-nv-aqos.packetDuration" = Some packet_duration ->
     get_sdp_attribute RustStr.parse_string sdp "x-nv-aqos.qosTrafficType" = Some audio_qos ->
     handle_announce_request sdp_parse manager_open request cseq =
     if manager_open then
       {| response := {| rversion := version request; status := StatusCode.Ok;
                         headers := [("CSeq", pretty cseq)]; rbody := [] |};
          set_stream_context :=
            Some ({| width := w; height := h; fps := fps; packet_size := ps;
                     bitrate := usize_mul kbps 1024; minimum_fec_packets := fec;
                     vqos := negb (String.eqb video_qos "0") |},
                  {| packet_duration := packet_duration;
                     aqos := negb (String.eqb audio_qos "0") |}) |}
     else no_push (rtsp_response cseq (version request) StatusCode.InternalServerError)).
Proof.
  intros Hp. split.
  - intros Hps. unfold handle_announce_request. rewrite Hp, Hps.
    repeat case_match; reflexivity.
  - intros w h fps ps kbps fec vq pd aq Hw Hh Hf Hps Hk Hfec Hvq Hpd Haq.
    unfold handle_announce_request. rewrite Hp, Hw, Hh, Hf, Hps, Hk, Hfec, Hvq, Hpd, Haq.
    reflexivity.
Qed.

(** The headers of a successful SETUP reply for a stream served on [p]. *)
Lemma setup_streamid_general (config : Config) (request : Request) (cseq : Z) (spec : string)
    (rest : list Transport) (u : Url) (value : string) :
  transports request = Ok (Some (Other spec :: rest)) ->
  request_uri request = Some u ->
  head (query_pairs u) = Some ("streamid", value) ->
  forall stream_id p,
    stream_id = RustStr.split_first "/" value ->
    (if String.eqb stream_id "video" then Some (port (video (stream config)))
     else if String.eqb stream_id "audio" then Some (port (audio (stream config)))
     else if String.eqb stream_id "control" then Some (port (control (stream config)))
     else None) = Some p ->
    status (handle_setup_request config request cseq) = StatusCode.Ok /\
    headers (handle_setup_request config request cseq)
      = [("CSeq", pretty cseq); ("Session", "MoonshineSession;timeout = 90");
         ("Transport", sappend "server_port=" (pretty p))].
Proof.
  intros Ht Hu Hq stream_id p -> Hp. unfold handle_setup_request.
  rewrite Ht. cbn [head]. rewrite Hu, Hq. cbn [fst snd String.eqb negb].
  change (String.eqb "streamid" "streamid") with true. cbn [negb]. rewrite Hp.
  split; reflexivity.
Qed.

(** C6 (amended): for a SETUP whose Transport header parses with a first
    transport of the non-RTP ("other") form, and whose request URI's first
    query pair is [streamid=<kind>/...]: kind video, audio or control gets
    status Ok with [Session: MoonshineSession;timeout = 90] and
    [Transport: server_port=<configured port of that kind>]; any other kind
    gets 400 BadRequest.  Every other SETUP gets the 400 reply, whatever
    its streamid: a Transport header that is absent or does not parse, an
    empty transport list, an RTP first transport, no request URI, no query,
    or a first query pair other than [streamid]. *)
Theorem setup_streamid_response (config : Config) (request : Request) (cseq : Z) :
  let r := handle_setup_request config request cseq in
  (forall spec rest u value,
     transports request = Ok (Some (Other spec :: rest)) ->
     request_uri request = Some u ->
     head (query_pairs u) = Some ("streamid", value) ->
     let kind := RustStr.split_first "/" value in
     (kind = "video" -> status r = StatusCode.Ok /\
        headers r = [("CSeq", pretty cseq); ("Session", "MoonshineSession;timeout = 90");
                     ("Transport", sappend "server_port=" (pretty (port (video (stream config)))))]) /\
     (kind = "audio" -> status r = StatusCode.Ok /\
        headers r = [("CSeq", pretty cseq); ("Session", "MoonshineSession;timeout = 90");
                     ("Transport", sappend "server_port=" (pretty (port (audio (stream config)))))]) /\
     (kind = "control" -> status r = StatusCode.Ok /\
        headers r = [("CSeq", pretty cseq); ("Session", "MoonshineSession;timeout = 90");
                     ("Transport", sappend "server_port=" (pretty (port (control (stream config)))))]) /\
     (kind <> "video" -> kind <> "audio" -> kind <> "control" ->
        status r = StatusCode.BadRequest)) /\
  ((exists e, transports request = Err e) \/ transports request = Ok None \/
   transports request = Ok (Some []) \/
   (exists spec rest, transports request = Ok (Some (Rtp spec :: rest))) \/
   (exists spec rest, transports request = Ok (Some (Other spec :: rest)) /\
      (request_uri request = None \/
       exists u, request_uri request = Some u /\
         (query_pairs u = [] \/ exists key value rest', query_pairs u = (key, value) :: rest' /\
                                                        key <> "streamid"))) ->
   r = rtsp_response cseq (version request) StatusCode.BadRequest).
Proof.
  cbv zeta. split.
  - intros spec rest u value Ht Hu Hq.
    split; [| split; [| split]].
    + intros Hk. eapply setup_streamid_general; eauto. rewrite Hk. reflexivity.
    + intros Hk. eapply setup_streamid_general; eauto. rewrite Hk. reflexivity.
    + intros Hk. eapply setup_streamid_general; eauto. rewrite Hk. reflexivity.
    + intros Hv Ha Hc. unfold handle_setup_request.
      rewrite Ht. cbn [head]. rewrite Hu, Hq. cbn [fst snd].
      change (String.eqb "streamid" "streamid") with true. cbn [negb].
      rewrite (proj2 (String.eqb_neq _ _) Hv), (proj2 (String.eqb_neq _ _) Ha),
        (proj2 (String.eqb_neq _ _) Hc).
      reflexivity.
  - unfold handle_setup_request.
    intros [[e ->] | [-> | [-> | [(spec & rest & ->) | (spec & rest & -> & Hu)]]]]; try reflexivity.
    cbn [head]. destruct Hu as [-> | (u & -> & [Hq | (key & value & rest' & Hq & Hk)])];
      [reflexivity | rewrite Hq; reflexivity |].
    rewrite Hq. cbn [head fst]. rewrite (proj2 (String.eqb_neq _ _) Hk). reflexivity.
Qed.

(** C6: a SETUP for [streamid=video/0/0] is refused with 400 when its
    first transport is an RTP transport, or when it has no Transport
    header. *)
Lemma setup_video_rejected_without_other_transport :
  RustStr.split_first "/" "video/0/0" = "video" /\
  status (handle_setup_request Fixtures.rtsp_config
            (Fixtures.setup_request (Ok (Some [Rtp "RTP/AVP/UDP;unicast"])) "video/0/0") 1)
    = StatusCode.BadRequest /\
  status (handle_setup_request Fixtures.rtsp_config
            (Fixtures.setup_request (Ok None) "video/0/0") 1)
    = StatusCode.BadRequest.
Proof. vm_compute. repeat split. Qed.

(** Witnesses: the theorems above at concrete requests. *)
Lemma announce_missing_attribute_bad_request_witness :
  status (response (handle_announce_request
    (fun _ => Ok {| attributes := [("x-nv-video[0].clientViewportWd", Some "1920")] |})
    true Fixtures.announce_request 2%Z)) = StatusCode.BadRequest /\
  set_stream_context (handle_announce_request
    (fun _ => Ok {| attributes := [("x-nv-video[0].clientViewportWd", Some "1920")] |})
    true Fixtures.announce_request 2%Z) = None.
Proof.
  apply (announce_missing_attribute_bad_request
           (fun _ => Ok {| attributes := [("x-nv-video[0].clientViewportWd", Some "1920")] |})
           true Fixtures.announce_request 2%Z
           {| attributes := [("x-nv-video[0].clientViewportWd", Some "1920")] |}
           "x-nv-aqos.packetDuration").
  - reflexivity.
  - cbn. tauto.
  - cbn. intros [H | []]. discriminate.
Defined.

Lemma announce_packet_size_unchecked_witness :
  Fixtures.announce (Fixtures.announce_sdp "1e3" "20000")
    = no_push (rtsp_response 3 V1_0 StatusCode.BadRequest) /\
  option_map (fun va => packet_size (fst va))
    (set_stream_context (Fixtures.announce (Fixtures.announce_sdp " 65536 " "20000"))) = Some 65536 /\
  option_map (fun va => packet_size (fst va))
    (set_stream_context (Fixtures.announce (Fixtures.announce_sdp Fixtures.ideographic_space_zero "20000")))
    = Some 0.
Proof.
  split; [| split].
  - apply (announce_packet_size_unchecked (fun _ => Ok (Fixtures.announce_sdp "1e3" "20000")) true
             Fixtures.announce_request 3 (Fixtures.announce_sdp "1e3" "20000") eq_refl).
    reflexivity.
  - unfold Fixtures.announce.
    rewrite (proj2 (announce_packet_size_unchecked (fun _ => Ok (Fixtures.announce_sdp " 65536 " "20000"))
                     true Fixtures.announce_request 3 (Fixtures.announce_sdp " 65536 " "20000") eq_refl)
               1920 1080 60 65536 20000 2 "5" 5 "4");
      try reflexivity.
  - unfold Fixtures.announce.
    rewrite (proj2 (announce_packet_size_unchecked
                     (fun _ => Ok (Fixtures.announce_sdp Fixtures.ideographic_space_zero "20000"))
                     true Fixtures.announce_request 3
                     (Fixtures.announce_sdp Fixtures.ideographic_space_zero "20000") eq_refl)
               1920 1080 60 0 20000 2 "5" 5 "4");
      try reflexivity.
Defined.

Lemma setup_streamid_response_witness :
  let request := Fixtures.setup_request (Ok (Some [Other "unicast;X-GS-ClientPort=50000-50001"]))
                   "audio/0/0" in
  (status (handle_setup_request Fixtures.rtsp_config request 4) = StatusCode.Ok /\
   headers (handle_setup_request Fixtures.rtsp_config request 4)
     = [("CSeq", pretty 4%Z); ("Session", "MoonshineSession;timeout = 90");
        ("Transport", sappend "server_port=" (pretty 48000))]) /\
  handle_setup_request Fixtures.rtsp_config
    (Fixtures.setup_request (Ok (Some [Rtp "RTP/AVP/UDP;unicast"])) "video/0/0") 4
  = rtsp_response 4 V1_0 StatusCode.BadRequest.
Proof.
  intros request. split.
  - destruct (setup_streamid_response Fixtures.rtsp_config request 4) as [Hok _].
    destruct (Hok "unicast;X-GS-ClientPort=50000-50001" [] {| query_pairs := [("streamid", "audio/0/0")] |}
                "audio/0/0" eq_refl eq_refl eq_refl) as (_ & Ha & _ & _).
    apply Ha. reflexivity.
  - destruct (setup_streamid_response Fixtures.rtsp_config
                (Fixtures.setup_request (Ok (Some [Rtp "RTP/AVP/UDP;unicast"])) "video/0/0") 4)
      as [_ Hbad].
    apply Hbad. right; right; right; left. exists "RTP/AVP/UDP;unicast", []. reflexivity.
Defined.

End RtspFacts.

(** ** The session manager *)
Module ManagerFacts.
Import Manager.

Section ManagerFacts.
Variables (Session SessionContext SessionKeys : Type).
Variables (VideoStreamContext AudioStreamContext : Type).
Variable session_new : SessionContext -> result Session.
Variable get_context : Session -> SessionContext.
Variable is_running : Session -> bool.
Variable start_stream : Session -> VideoStreamContext -> AudioStreamContext -> Session.
Variable stop_stream : Session -> Session.
Variable update_keys : Session -> SessionKeys -> Session.

Local Abbreviation step :=
  (Manager.step Session SessionContext SessionKeys VideoStreamContext AudioStreamContext
     session_new get_context is_running start_stream stop_stream update_keys).
Local Abbreviation run :=
  (Manager.run Session SessionContext SessionKeys VideoStreamContext AudioStreamContext
     session_new get_context is_running start_stream stop_stream update_keys).
Local Abbreviation Inner := (SessionManagerInner Session VideoStreamContext AudioStreamContext).
Local Abbreviation Ev := (Event SessionContext SessionKeys VideoStreamContext AudioStreamContext).

Lemma initialize_with_session (self : Inner) (ctx : SessionContext) :
  session _ _ _ self <> None ->
  step self (Command _ _ _ _ (InitializeSession _ _ _ _ ctx)) = Some (self, []).
Proof.
  intros H. cbn. destruct (session _ _ _ self); [reflexivity | congruence].
Qed.

Lemma new_session_only_from_absent (self self' : Inner) (ev : Ev) effs (ctx : SessionContext) :
  step self ev = Some (self', effs) ->
  In (NewSession _ ctx) effs ->
  session _ _ _ self = None /\ ev = Command _ _ _ _ (InitializeSession _ _ _ _ ctx).
Proof.
  destruct ev as [| c |]; cbn.
  - intros H. inversion H. subst. cbn. tauto.
  - destruct c; cbn.
    + destruct (session _ _ _ self); intros H; inversion H; subst; cbn; tauto.
    + intros H. inversion H. subst. cbn. intros [Hc | []]. discriminate.
    + destruct (session _ _ _ self) eqn:Hs.
      * intros H. inversion H. subst. cbn. tauto.
      * destruct (session_new _); intros H; inversion H; subst; cbn;
          intros [Hc | []]; inversion Hc; subst; auto.
    + destruct (session _ _ _ self) as [s |]; [| intros H; inversion H; subst; cbn; tauto].
      destruct (is_running s); [intros H; inversion H; subst; cbn; tauto |].
      destruct (video_stream_context _ _ _ self), (audio_stream_context _ _ _ self);
        intros H; inversion H; subst; cbn; tauto.
    + destruct (session _ _ _ self); intros H; inversion H; subst; cbn; tauto.
    + destruct (session _ _ _ self); intros H; inversion H; subst; cbn; tauto.
  - discriminate.
Qed.

(** C1: whatever sequence of events led the manager to a state, an
    [InitializeSession] while a session is active leaves the state as it
    is (the new context is dropped), and [Session::new] is only called
    when no session is active, on [InitializeSession].  The state holds
    at most one session by its type ([option Session]). *)
Theorem manager_single_session (evs : list Ev) (self : Inner) (ctx : SessionContext) :
  run (default_inner _ _ _) evs = Some self ->
  (session _ _ _ self <> None ->
     step self (Command _ _ _ _ (InitializeSession _ _ _ _ ctx)) = Some (self, [])) /\
  (forall (ev : Ev) (self' : Inner) effs,
     step self ev = Some (self', effs) -> In (NewSession _ ctx) effs ->
     session _ _ _ self = None /\ ev = Command _ _ _ _ (InitializeSession _ _ _ _ ctx)).
Proof.
  intros _. split.
  - apply initialize_with_session.
  - intros ev self' effs. apply new_session_only_from_absent.
Qed.

End ManagerFacts.

Lemma manager_single_session_witness :
  Manager.run N N unit unit unit (fun c => Ok c) (fun s => s) (fun _ => false)
    (fun s _ _ => s) (fun s => s) (fun s _ => s) (Manager.default_inner _ _ _)
    [Command _ _ _ _ (InitializeSession _ _ _ _ 5)]
    = Some {| session := Some 5; video_stream_context := None; audio_stream_context := None |} /\
  Manager.step N N unit unit unit (fun c => Ok c) (fun s => s) (fun _ => false)
    (fun s _ _ => s) (fun s => s) (fun s _ => s)
    {| session := Some 5; video_stream_context := None; audio_stream_context := None |}
    (Command _ _ _ _ (InitializeSession _ _ _ _ 9))
  = Some ({| session := Some 5; video_stream_context := None; audio_stream_context := None |}, []).
Proof.
  split; [reflexivity |].
  apply (manager_single_session N N unit unit unit (fun c => Ok c) (fun s => s) (fun _ => false)
           (fun s _ _ => s) (fun s => s) (fun s _ => s)
           [Command _ _ _ _ (InitializeSession _ _ _ _ 5)]
           {| session := Some 5; video_stream_context := None; audio_stream_context := None |} 9);
    [reflexivity | discriminate].
Defined.

End ManagerFacts.

(** ** The video stream *)
Module VideoFacts.
Import Video.

(** *** Address discovery by PING *)
Section Sender.
Variable SocketAddr : Type.
Local Abbreviation Ev := (SocketEvent SocketAddr).
Local Abbreviation St := (SenderState SocketAddr).

Lemma bytes_eqb_spec (a b : list N) : bytes_eqb a b = true <-> a = b.
Proof.
  revert b. induction a as [| x a IH]; intros [| y b]; cbn; try (split; congruence).
  rewrite andb_true_iff, N.eqb_eq, IH. split; [intros [-> ->]; reflexivity | intros H; inversion H; auto].
Qed.

(** The 1024-byte receive buffer does not change which datagrams are PINGs. *)
Lemma truncated_ping (d : list N) : bytes_eqb (firstn 1024 d) PING = bytes_eqb d PING.
Proof.
  destruct (bytes_eqb d PING) eqn:E.
  - apply bytes_eqb_spec in E. subst. reflexivity.
  - destruct (bytes_eqb (firstn 1024 d) PING) eqn:F; [| reflexivity].
    apply bytes_eqb_spec in F. exfalso.
    assert (Hl : length (firstn 1024 d) = 4%nat) by (rewrite F; reflexivity).
    rewrite length_firstn in Hl.
    assert (Hd : firstn 1024 d = d) by (apply firstn_all2; lia).
    rewrite Hd in F. subst. discriminate.
Qed.

Lemma sender_step_stopped (st : St) (ev : Ev) :
  running _ st = false -> sender_step _ st ev = (st, []).
Proof. intros H. unfold sender_step. rewrite H. reflexivity. Qed.

Lemma sender_step_dequeued (st : St) (packet : list N) :
  running _ st = true ->
  sender_step _ st (Dequeued _ packet) =
  (st, match client_address _ st with Some a => [(a, packet)] | None => [] end).
Proof.
  intros H. unfold sender_step. rewrite H. cbv beta iota zeta.
  destruct (client_address _ st); reflexivity.
Qed.

Lemma sender_step_received (st : St) (d : list N) (a : SocketAddr) :
  running _ st = true ->
  sender_step _ st (Received _ d a) =
  if bytes_eqb d PING then ({| client_address := Some a; running := true |}, []) else (st, []).
Proof.
  intros H. unfold sender_step. rewrite H. cbv beta iota zeta.
  rewrite truncated_ping. reflexivity.
Qed.

Lemma sender_step_stops (st : St) (ev : Ev) :
  running _ st = true -> stops _ ev = true ->
  sender_step _ st ev = ({| client_address := client_address _ st; running := false |}, []).
Proof.
  intros H Hs. unfold sender_step. rewrite H. cbv beta iota zeta.
  destruct ev; try discriminate; reflexivity.
Qed.

Lemma sender_run_cons (st : St) (ev : Ev) (evs : list Ev) :
  sender_run _ st (ev :: evs) =
  (fst (sender_run _ (fst (sender_step _ st ev)) evs),
   snd (sender_step _ st ev) ++ snd (sender_run _ (fst (sender_step _ st ev)) evs)).
Proof.
  cbn [sender_run]. destruct (sender_step _ st ev) as [s1 o1]. cbn [fst snd].
  destruct (sender_run _ s1 evs). reflexivity.
Qed.

Lemma sender_run_stopped (st : St) (evs : list Ev) :
  running _ st = false -> sender_run _ st evs = (st, []).
Proof.
  revert st. induction evs as [| ev evs IH]; intros st H; [reflexivity |].
  rewrite sender_run_cons, sender_step_stopped by exact H. cbn [fst snd].
  rewrite IH by exact H. reflexivity.
Qed.

Lemma last_ping_cons_none (ev : Ev) (evs : list Ev) :
  last_ping _ (ev :: evs) = None ->
  last_ping _ evs = None /\
  (forall d a, ev = Received _ d a -> bytes_eqb d PING = false).
Proof.
  cbn. destruct (last_ping _ evs); [discriminate |]. intros H. split; [reflexivity |].
  intros d a ->. destruct (bytes_eqb d PING); [discriminate | reflexivity].
Qed.

Lemma no_send_before_ping_from (st : St) (evs : list Ev) :
  client_address _ st = None -> last_ping _ evs = None -> snd (sender_run _ st evs) = [].
Proof.
  revert st. induction evs as [| ev evs IH]; intros st Hst Hp; [reflexivity |].
  destruct (last_ping_cons_none _ _ Hp) as [Hrest Hev].
  destruct (running _ st) eqn:Hr; [| rewrite sender_run_stopped by exact Hr; reflexivity].
  rewrite sender_run_cons. cbn [snd].
  destruct (stops _ ev) eqn:Hs.
  - rewrite (sender_step_stops _ _ Hr Hs). cbn [fst snd].
    rewrite sender_run_stopped by reflexivity. reflexivity.
  - destruct ev as [packet | | d a |]; try discriminate.
    + rewrite (sender_step_dequeued _ _ Hr), Hst. cbn [fst snd app]. auto.
    + rewrite (sender_step_received _ _ _ Hr), (Hev d a eq_refl). cbn [fst snd app]. auto.
Qed.

Lemma sender_run_app (st : St) (evs1 evs2 : list Ev) :
  sender_run _ st (evs1 ++ evs2) =
  (fst (sender_run _ (fst (sender_run _ st evs1)) evs2),
   snd (sender_run _ st evs1) ++ snd (sender_run _ (fst (sender_run _ st evs1)) evs2)).
Proof.
  revert st. induction evs1 as [| ev evs1 IH]; intros st.
  - cbn [app sender_run fst snd app]. destruct (sender_run _ st evs2). reflexivity.
  - rewrite <- app_comm_cons, !sender_run_cons, IH. cbn [fst snd].
    rewrite app_assoc. reflexivity.
Qed.

Lemma sender_run_state (st : St) (evs : list Ev) :
  running _ st = true -> forallb (fun ev => negb (stops _ ev)) evs = true ->
  fst (sender_run _ st evs) =
  {| client_address := match last_ping _ evs with
                       | Some a => Some a
                       | None => client_address _ st
                       end;
     running := true |}.
Proof.
  revert st. induction evs as [| ev evs IH]; intros st Hr Hs.
  - destruct st as [c r]. cbn in *. subst. reflexivity.
  - cbn [forallb] in Hs. apply andb_true_iff in Hs as [Hev Hs].
    rewrite sender_run_cons. cbn [fst].
    destruct ev as [packet | | d a |]; try discriminate.
    + rewrite (sender_step_dequeued _ _ Hr). cbn [fst].
      rewrite (IH st Hr Hs). cbn [last_ping]. destruct (last_ping _ evs); reflexivity.
    + rewrite (sender_step_received _ _ _ Hr). cbn [last_ping].
      destruct (bytes_eqb d PING).
      * cbn [fst]. rewrite IH by auto. cbn [client_address].
        destruct (last_ping _ evs); reflexivity.
      * cbn [fst]. rewrite (IH st Hr Hs). destruct (last_ping _ evs); reflexivity.
Qed.

(** C8: before any datagram with payload exactly "PING" has been received,
    the video socket sends nothing; once the task is running with no stop,
    a dequeued packet is sent to the source of the most recent PING, or
    dropped when there has been none. *)
Theorem video_ping_dispatch :
  (forall evs : list Ev, last_ping _ evs = None -> snd (sender_run _ (sender_init _) evs) = []) /\
  (forall (evs : list Ev) (packet : list N),
     forallb (fun ev => negb (stops _ ev)) evs = true ->
     snd (sender_run _ (sender_init _) (evs ++ [Dequeued _ packet])) =
     snd (sender_run _ (sender_init _) evs) ++
       match last_ping _ evs with
       | Some a => [(a, packet)]
       | None => []
       end).
Proof.
  split.
  - intros evs Hp. apply no_send_before_ping_from; [reflexivity | exact Hp].
  - intros evs packet Hs. rewrite sender_run_app.
    rewrite (sender_run_state (sender_init _) evs eq_refl Hs). cbn [snd].
    rewrite sender_run_cons, sender_step_dequeued by reflexivity. cbn [fst snd client_address].
    destruct (last_ping _ evs); cbn [sender_run snd]; rewrite !app_nil_r; reflexivity.
Qed.

End Sender.

Lemma video_ping_dispatch_witness :
  snd (sender_run N (sender_init N) [Dequeued N [1]]) = [] /\
  snd (sender_run N (sender_init N) ([Dequeued N [1]; Received N PING 7; Dequeued N [2];
                                      Received N PING 9] ++ [Dequeued N [3]]))
    = [(7, [2]); (9, [3])].
Proof.
  destruct (video_ping_dispatch N) as [Hnone Hsend]. split.
  - apply Hnone. reflexivity.
  - rewrite Hsend by reflexivity. reflexivity.
Defined.

(** *** The packet channel *)

(** C9: with 1024 packets queued, no sender operation drops the oldest
    packet to admit the new one: [send] and [blocking_send] wait, and
    [try_send] fails with [Full]. *)
Lemma packet_queue_full_keeps_oldest :
  length Fixtures.full_queue = 1024%nat /\
  sender_enqueue Send {| capacity := capacity packet_channel; queue := Fixtures.full_queue;
                         receiver_open := true |} [7] = Waiting /\
  sender_enqueue BlockingSend {| capacity := capacity packet_channel; queue := Fixtures.full_queue;
                                 receiver_open := true |} [7] = Waiting /\
  sender_enqueue TrySend {| capacity := capacity packet_channel; queue := Fixtures.full_queue;
                            receiver_open := true |} [7] = Full.
Proof. vm_compute. repeat split. Qed.

(** C9 (amended): the outbound video queue is a bounded channel of
    capacity 1024, created with its receiver.  While the receiver exists,
    an enqueue below capacity appends the packet at the back and drops
    nothing, and an enqueue on a full queue leaves it as it is: the sender
    waits ([send], [blocking_send]) or gets [Full] ([try_send]).  Once the
    socket task has dropped the receiver, every enqueue fails with
    [Closed], whatever the queue's length, and the packet is not queued. *)
Theorem packet_queue_bounded_no_drop (op : SendOp) (ch : Channel) (p : list N) :
  capacity packet_channel = 1024%nat /\ receiver_open packet_channel = true /\
  (receiver_open ch = true -> (length (queue ch) < capacity ch)%nat ->
     sender_enqueue op ch p
     = Enqueued {| capacity := capacity ch; queue := queue ch ++ [p]; receiver_open := true |}) /\
  (receiver_open ch = true -> (capacity ch <= length (queue ch))%nat ->
     sender_enqueue op ch p = match op with TrySend => Full | _ => Waiting end) /\
  sender_enqueue op (drop_receiver ch) p = Closed p.
Proof.
  split; [reflexivity | split; [reflexivity | split; [| split]]].
  - intros Ho H. unfold sender_enqueue. rewrite Ho. cbn [negb].
    apply Nat.ltb_lt in H. rewrite H. reflexivity.
  - intros Ho H. unfold sender_enqueue. rewrite Ho. cbn [negb].
    replace (Nat.ltb (length (queue ch)) (capacity ch)) with false
      by (symmetry; apply Nat.ltb_ge; exact H).
    destruct op; reflexivity.
  - reflexivity.
Qed.

Lemma packet_queue_bounded_no_drop_witness :
  sender_enqueue TrySend packet_channel [1]
    = Enqueued {| capacity := 1024; queue := [[1]]; receiver_open := true |} /\
  sender_enqueue Send {| capacity := 1024; queue := Fixtures.full_queue; receiver_open := true |} [1]
    = Waiting.
Proof.
  destruct (packet_queue_bounded_no_drop TrySend packet_channel [1]) as (_ & _ & Hlt & _).
  destruct (packet_queue_bounded_no_drop Send
              {| capacity := 1024; queue := Fixtures.full_queue; receiver_open := true |} [1])
    as (_ & _ & _ & Hge & _).
  split.
  - apply Hlt; [reflexivity | cbn; lia].
  - apply Hge; [reflexivity | vm_compute; lia].
Defined.

(** *** Starting the stream *)

Lemma command_step_started (st : LoopState) (command : VideoStreamCommand) (env : StartEnv)
    (idr_send : result unit) :
  started_streaming st = true ->
  command_step st command env idr_send = Continue st [] \/
  exists e, command_step st command env idr_send = Exit (Err e).
Proof.
  intros H. destruct command; cbn.
  - rewrite H. left. reflexivity.
  - destruct idr_send; [left; reflexivity | right; eauto].
Qed.

(** C10: once a [Start] has spawned both workers, every later [Start] is
    ignored: over any later sequence of commands, the loop either keeps its
    state unchanged and spawns no worker, or exits on a failed IDR request. *)
Theorem video_start_idempotent (st : LoopState)
    (cmds : list (VideoStreamCommand * StartEnv * result unit)) :
  started_streaming st = true ->
  command_step st Start = (fun env idr_send => Continue st []) /\
  (command_run st cmds = Continue st [] \/ exists e, command_run st cmds = Exit (Err e)).
Proof.
  intros H. split.
  - unfold command_step. rewrite H. reflexivity.
  - induction cmds as [| [[command env] idr_send] rest IH]; [left; reflexivity |].
    cbn [command_run].
    destruct (command_step_started st command env idr_send H) as [-> | [e ->]].
    + destruct IH as [-> | [e ->]]; [left; reflexivity | right; eauto].
    + right. eauto.
Qed.

Lemma video_start_idempotent_witness :
  command_step {| started_streaming := false; context := Fixtures.ctx_1080p |} Start Fixtures.ok_env (Ok tt)
    = Continue {| started_streaming := true; context := Fixtures.ctx_1080p |} [CaptureThread; EncodeThread] /\
  command_run {| started_streaming := true; context := Fixtures.ctx_1080p |}
    [(Start, Fixtures.ok_env, Ok tt); (RequestIdrFrame, Fixtures.ok_env, Ok tt); (Start, Fixtures.ok_env, Ok tt)]
    = Continue {| started_streaming := true; context := Fixtures.ctx_1080p |} [].
Proof.
  split; [reflexivity |].
  destruct (video_start_idempotent {| started_streaming := true; context := Fixtures.ctx_1080p |}
              [(Start, Fixtures.ok_env, Ok tt); (RequestIdrFrame, Fixtures.ok_env, Ok tt); (Start, Fixtures.ok_env, Ok tt)]
              eq_refl) as [_ [H | [e H]]].
  - exact H.
  - exfalso. vm_compute in H. discriminate.
Defined.

End VideoFacts.

(** ** The video stream: further properties *)
Module VideoStartFacts.
Import Video.

Lemma start_prepared_spec (env : StartEnv) :
  start_prepared env = true ->
  cuda_device_new env = Ok tt /\ frame_capturer_new env = Ok tt /\
  (exists w h, capturer_status env = Ok (w, h)) /\ encoder_new env = Ok tt /\
  create_capture_buffer env = Ok tt /\ create_intermediate_buffer env = Ok tt /\
  create_encoder_buffer env = Ok tt.
Proof.
  unfold start_prepared. rewrite !andb_true_iff.
  intros ((((((H1 & H2) & H3) & H4) & H5) & H6) & H7).
  destruct (cuda_device_new env) as [[] |]; [| discriminate].
  destruct (frame_capturer_new env) as [[] |]; [| discriminate].
  destruct (capturer_status env) as [[w h] |]; [| discriminate].
  destruct (encoder_new env) as [[] |]; [| discriminate].
  destruct (create_capture_buffer env) as [[] |]; [| discriminate].
  destruct (create_intermediate_buffer env) as [[] |]; [| discriminate].
  destruct (create_encoder_buffer env) as [[] |]; [| discriminate].
  repeat split; eauto.
Qed.

(** The context a [Start] works with once the screen reports [w] x [h]. *)
Lemma command_step_prepared (st : LoopState) (env : StartEnv) (idr_send : result unit) (w h : N) :
  started_streaming st = false -> start_prepared env = true -> capturer_status env = Ok (w, h) ->
  let ctx := if negb (N.eqb w (width (context st))) || negb (N.eqb h (height (context st)))
             then with_screen (context st) w h else context st in
  command_step st Start env idr_send =
    match spawn_capture_thread env with
    | Err _ => Continue {| started_streaming := false; context := ctx |} []
    | Ok _ =>
        match spawn_encode_thread env with
        | Err _ => Continue {| started_streaming := false; context := ctx |} [CaptureThread]
        | Ok _ => Continue {| started_streaming := true; context := ctx |} [CaptureThread; EncodeThread]
        end
    end.
Proof.
  intros Hs Hp Hst ctx.
  destruct (start_prepared_spec env Hp) as (H1 & H2 & _ & H4 & H5 & H6 & H7).
  unfold command_step. rewrite Hs, H1, H2, Hst, H4, H5, H6, H7. reflexivity.
Qed.

(** A Start ends the command loop (the video task returns the error)
    exactly when the stream has not started yet and one of its setup calls
    fails; a failed thread spawn does not end it. *)
Theorem video_start_setup_failure_exits (st : LoopState) (env : StartEnv) (idr_send : result unit) :
  (exists e, command_step st Start env idr_send = Exit (Err e)) <->
  started_streaming st = false /\ start_prepared env = false.
Proof.
  unfold command_step, start_prepared.
  destruct (started_streaming st).
  { split; [intros [e H]; discriminate | intros [H _]; discriminate]. }
  destruct (cuda_device_new env) as [[] | e]; cbn [is_ok andb];
    [| split; [intros _; split; reflexivity | intros _; eauto]].
  destruct (frame_capturer_new env) as [[] | e]; cbn [is_ok andb];
    [| split; [intros _; split; reflexivity | intros _; eauto]].
  destruct (capturer_status env) as [[w h] | e]; cbn [is_ok andb];
    [| split; [intros _; split; reflexivity | intros _; eauto]].
  destruct (encoder_new env) as [[] | e]; cbn [is_ok andb];
    [| split; [intros _; split; reflexivity | intros _; eauto]].
  destruct (create_capture_buffer env) as [[] | e]; cbn [is_ok andb];
    [| split; [intros _; split; reflexivity | intros _; eauto]].
  destruct (create_intermediate_buffer env) as [[] | e]; cbn [is_ok andb];
    [| split; [intros _; split; reflexivity | intros _; eauto]].
  destruct (create_encoder_buffer env) as [[] | e]; cbn [is_ok andb];
    [| split; [intros _; split; reflexivity | intros _; eauto]].
  split; [| intros [_ H]; discriminate].
  intros [e H]. destruct (spawn_capture_thread env); [| discriminate].
  destruct (spawn_encode_thread env); discriminate.
Qed.

(** A Start that gets past [capturer.status()] replaces the requested
    resolution by the screen's: afterwards the context's width and height
    are the screen size and its other fields are unchanged. *)
Theorem video_start_adopts_screen_size (st st' : LoopState) (env : StartEnv) (idr_send : result unit)
    (w h : N) (spawned : list Worker) :
  started_streaming st = false -> capturer_status env = Ok (w, h) ->
  command_step st Start env idr_send = Continue st' spawned ->
  width (context st') = w /\ height (context st') = h /\
  fps (context st') = fps (context st) /\ packet_size (context st') = packet_size (context st) /\
  bitrate (context st') = bitrate (context st) /\
  minimum_fec_packets (context st') = minimum_fec_packets (context st) /\
  qos (context st') = qos (context st) /\ video_format (context st') = video_format (context st).
Proof.
  intros Hs Hst Hstep.
  assert (Hctx : context st' =
            if negb (N.eqb w (width (context st))) || negb (N.eqb h (height (context st)))
            then with_screen (context st) w h else context st).
  { revert Hstep. unfold command_step. rewrite Hs, Hst.
    destruct (cuda_device_new env); [| discriminate].
    destruct (frame_capturer_new env); [| discriminate].
    destruct (encoder_new env); [| discriminate].
    destruct (create_capture_buffer env); [| discriminate].
    destruct (create_intermediate_buffer env); [| discriminate].
    destruct (create_encoder_buffer env); [| discriminate].
    destruct (spawn_capture_thread env); [destruct (spawn_encode_thread env) |];
      intros H; inversion H; reflexivity. }
  rewrite Hctx.
  destruct (N.eqb_spec w (width (context st))) as [Hw | Hw];
    destruct (N.eqb_spec h (height (context st))) as [Hh | Hh]; cbn [negb orb];
    cbn [with_screen width height fps packet_size bitrate minimum_fec_packets qos video_format];
    auto 10.
Qed.

(** When the encode thread fails to spawn, the capture thread already
    spawned is left running and the stream is not marked started, so the
    next Start spawns a second capture thread. *)
Theorem video_restart_duplicates_capture_thread (ctx : VideoStreamContext) (env1 env2 : StartEnv)
    (idr1 idr2 : result unit) (e : string) :
  start_prepared env1 = true -> spawn_capture_thread env1 = Ok tt -> spawn_encode_thread env1 = Err e ->
  start_prepared env2 = true -> spawn_capture_thread env2 = Ok tt -> spawn_encode_thread env2 = Ok tt ->
  exists ctx', command_run {| started_streaming := false; context := ctx |}
                 [(Start, env1, idr1); (Start, env2, idr2)]
               = Continue {| started_streaming := true; context := ctx' |}
                   [CaptureThread; CaptureThread; EncodeThread].
Proof.
  intros Hp1 Hc1 He1 Hp2 Hc2 He2.
  destruct (start_prepared_spec env1 Hp1) as (_ & _ & (w1 & h1 & Hst1) & _).
  destruct (start_prepared_spec env2 Hp2) as (_ & _ & (w2 & h2 & Hst2) & _).
  cbn [command_run].
  rewrite (command_step_prepared {| started_streaming := false; context := ctx |} env1 idr1 w1 h1
             eq_refl Hp1 Hst1), Hc1, He1.
  cbv zeta.
  erewrite (command_step_prepared _ env2 idr2 w2 h2); [| reflexivity | exact Hp2 | exact Hst2].
  rewrite Hc2, He2. eexists. reflexivity.
Qed.

Lemma video_start_setup_failure_exits_witness :
  (exists e, command_step {| started_streaming := false; context := Fixtures.ctx_1080p |} Start
               Fixtures.encoder_fails_env (Ok tt) = Exit (Err e)) /\
  ~ (exists e, command_step {| started_streaming := false; context := Fixtures.ctx_1080p |} Start
                 Fixtures.encode_spawn_fails_env (Ok tt) = Exit (Err e)).
Proof.
  split.
  - apply (video_start_setup_failure_exits {| started_streaming := false; context := Fixtures.ctx_1080p |}
             Fixtures.encoder_fails_env (Ok tt)).
    split; reflexivity.
  - rewrite (video_start_setup_failure_exits {| started_streaming := false; context := Fixtures.ctx_1080p |}
               Fixtures.encode_spawn_fails_env (Ok tt)).
    intros [_ H]. discriminate.
Defined.

Lemma video_start_adopts_screen_size_witness :
  width (context {| started_streaming := true;
                    context := with_screen Fixtures.ctx_1080p 2560 1440 |}) = 2560 /\
  height (context {| started_streaming := true;
                     context := with_screen Fixtures.ctx_1080p 2560 1440 |}) = 1440.
Proof.
  destruct (video_start_adopts_screen_size {| started_streaming := false; context := Fixtures.ctx_1080p |}
              {| started_streaming := true; context := with_screen Fixtures.ctx_1080p 2560 1440 |}
              Fixtures.screen_1440p_env (Ok tt) 2560 1440 [CaptureThread; EncodeThread]
              eq_refl eq_refl eq_refl) as (Hw & Hh & _).
  split; [exact Hw | exact Hh].
Defined.

Lemma video_restart_duplicates_capture_thread_witness :
  exists ctx', command_run {| started_streaming := false; context := Fixtures.ctx_1080p |}
                 [(Start, Fixtures.encode_spawn_fails_env, Ok tt); (Start, Fixtures.ok_env, Ok tt)]
               = Continue {| started_streaming := true; context := ctx' |}
                   [CaptureThread; CaptureThread; EncodeThread].
Proof.
  apply (video_restart_duplicates_capture_thread Fixtures.ctx_1080p Fixtures.encode_spawn_fails_env
           Fixtures.ok_env (Ok tt) (Ok tt) "Resource temporarily unavailable");
    reflexivity.
Defined.

(** After the packet channel closes or a receive fails, the socket task
    sends nothing more, whatever arrives later (a new PING included). *)
Theorem video_sender_stops_for_good (SocketAddr : Type) (st : SenderState SocketAddr)
    (evs1 : list (SocketEvent SocketAddr)) (ev : SocketEvent SocketAddr)
    (evs2 : list (SocketEvent SocketAddr)) :
  stops _ ev = true ->
  snd (sender_run _ st (evs1 ++ ev :: evs2)) = snd (sender_run _ st evs1).
Proof.
  intros Hev. rewrite VideoFacts.sender_run_app. cbn [snd].
  set (st1 := fst (sender_run _ st evs1)).
  rewrite VideoFacts.sender_run_cons. cbn [snd].
  destruct (running _ st1) eqn:Hr.
  - rewrite (VideoFacts.sender_step_stops _ _ _ Hr Hev). cbn [fst snd].
    rewrite (VideoFacts.sender_run_stopped _ {| client_address := client_address _ st1; running := false |}
               evs2 eq_refl).
    cbn [snd]. rewrite !app_nil_r. reflexivity.
  - rewrite (VideoFacts.sender_step_stopped _ _ _ Hr). cbn [fst snd].
    rewrite (VideoFacts.sender_run_stopped _ st1 evs2 Hr). cbn [snd]. rewrite !app_nil_r. reflexivity.
Qed.

Lemma video_sender_stops_for_good_witness :
  snd (sender_run N (sender_init N) ([Received N PING 7; Dequeued N [1]] ++
                                     RecvError N :: [Received N PING 9; Dequeued N [2]]))
    = [(7, [1])].
Proof.
  rewrite (video_sender_stops_for_good N (sender_init N) [Received N PING 7; Dequeued N [1]] (RecvError N)
             [Received N PING 9; Dequeued N [2]] eq_refl).
  reflexivity.
Defined.

End VideoStartFacts.

(** ** The session manager: further properties *)
Module ManagerRunFacts.
Import Manager.

Section ManagerRunFacts.
Variables (Session SessionContext SessionKeys : Type).
Variables (VideoStreamContext AudioStreamContext : Type).
Variable session_new : SessionContext -> result Session.
Variable get_context : Session -> SessionContext.
Variable is_running : Session -> bool.
Variable start_stream : Session -> VideoStreamContext -> AudioStreamContext -> Session.
Variable stop_stream : Session -> Session.
Variable update_keys : Session -> SessionKeys -> Session.

Local Abbreviation step :=
  (Manager.step Session SessionContext SessionKeys VideoStreamContext AudioStreamContext
     session_new get_context is_running start_stream stop_stream update_keys).
Local Abbreviation run :=
  (Manager.run Session SessionContext SessionKeys VideoStreamContext AudioStreamContext
     session_new get_context is_running start_stream stop_stream update_keys).
Local Abbreviation Inner := (SessionManagerInner Session VideoStreamContext AudioStreamContext).
Local Abbreviation Ev := (Event SessionContext SessionKeys VideoStreamContext AudioStreamContext).
Local Abbreviation Cmd := (Command SessionContext SessionKeys VideoStreamContext AudioStreamContext).

Lemma step_none (self : Inner) (ev : Ev) :
  step self ev = None <-> ev = ChannelClosed _ _ _ _.
Proof.
  split; [| intros ->; reflexivity].
  destruct ev as [| c |]; [discriminate | | reflexivity].
  destruct c; cbn.
  - destruct (session _ _ _ self); discriminate.
  - discriminate.
  - destruct (session _ _ _ self); [discriminate |]. destruct (session_new _); discriminate.
  - destruct (session _ _ _ self) as [s |]; [| discriminate].
    destruct (is_running s); [discriminate |].
    destruct (video_stream_context _ _ _ self), (audio_stream_context _ _ _ self); discriminate.
  - destruct (session _ _ _ self); discriminate.
  - destruct (session _ _ _ self); discriminate.
Qed.

(** The manager loop ends exactly when its command channel closes: a
    sequence of events stops the loop if and only if it contains
    [ChannelClosed]; shutdowns and commands, failed ones included, never
    end it. *)
Theorem manager_exits_only_on_channel_close (self : Inner) (evs : list Ev) :
  run self evs = None <-> In (ChannelClosed _ _ _ _) evs.
Proof.
  revert self. induction evs as [| ev evs IH]; intros self; cbn [run In].
  - split; [discriminate | intros []].
  - destruct (step self ev) as [[self' effs] |] eqn:Hs.
    + rewrite IH. split; [auto |].
      intros [Heq | Hin]; [| exact Hin].
      exfalso. subst ev. discriminate Hs.
    + apply step_none in Hs. subst. split; auto.
Qed.

Definition contexts_paired (self : Inner) : Prop :=
  is_Some (video_stream_context _ _ _ self) <-> is_Some (audio_stream_context _ _ _ self).

Lemma step_contexts_paired (self self' : Inner) (ev : Ev) effs :
  contexts_paired self -> step self ev = Some (self', effs) -> contexts_paired self'.
Proof.
  unfold contexts_paired. destruct self as [sess vc ac]. cbn. intros Hinv.
  destruct ev as [| c |]; cbn.
  - intros H. inversion H. subst. exact Hinv.
  - destruct c; cbn;
      repeat match goal with
             | |- context [match ?x with _ => _ end] => destruct x
             end;
      intros H; inversion H; subst; cbn; first [exact Hinv | split; eauto].
  - discriminate.
Qed.

(** In every state the manager reaches from its initial state, the video
    and audio stream contexts are both stored or both absent: they are only
    ever set together. *)
Theorem manager_contexts_set_together (evs : list Ev) (self : Inner) :
  run (default_inner _ _ _) evs = Some self ->
  (is_Some (video_stream_context _ _ _ self) <-> is_Some (audio_stream_context _ _ _ self)).
Proof.
  assert (Hgen : forall (s0 : Inner) evs, contexts_paired s0 -> run s0 evs = Some self ->
                   contexts_paired self).
  { intros s0 evs0. revert s0. induction evs0 as [| ev evs0 IH]; intros s0 Hinv; cbn [run].
    - intros H. inversion H. subst. exact Hinv.
    - destruct (step s0 ev) as [[s1 effs] |] eqn:Hs; [| discriminate].
      apply IH. exact (step_contexts_paired _ _ _ _ Hinv Hs). }
  intros H. apply (Hgen (default_inner _ _ _) evs); [| exact H].
  unfold contexts_paired. cbn. split; intros [x Hx]; discriminate.
Qed.

(** Ending a session, by [StopSession] or by a triggered shutdown, keeps
    the stored stream contexts: a later [InitializeSession] followed by
    [StartSession] starts the new session's stream with the old contexts,
    without a new [SetStreamContext]. *)
Theorem manager_contexts_outlive_session (self : Inner) (ev : Ev) (s s' : Session)
    (v : VideoStreamContext) (a : AudioStreamContext) (ctx : SessionContext) :
  session _ _ _ self = Some s ->
  video_stream_context _ _ _ self = Some v -> audio_stream_context _ _ _ self = Some a ->
  ev = Cmd (StopSession _ _ _ _) \/ ev = ShutdownTriggered _ _ _ _ ->
  session_new ctx = Ok s' -> is_running s' = false ->
  run self [ev; Cmd (InitializeSession _ _ _ _ ctx); Cmd (StartSession _ _ _ _)] =
  Some {| session := Some (start_stream s' v a);
          video_stream_context := Some v; audio_stream_context := Some a |}.
Proof.
  intros Hs Hv Ha Hev Hn Hr.
  destruct self as [sess vc ac]. cbn in Hs, Hv, Ha. subst sess vc ac.
  destruct Hev as [-> | ->]; cbn; rewrite Hn; cbn; rewrite Hr; reflexivity.
Qed.

(** Stream contexts sent before a session exists are dropped: from the
    initial state, [SetStreamContext] then [InitializeSession] then
    [StartSession] leaves the new session unstarted, with no contexts
    stored. *)
Theorem manager_context_before_session_dropped (v : VideoStreamContext) (a : AudioStreamContext)
    (ctx : SessionContext) (s : Session) :
  session_new ctx = Ok s ->
  run (default_inner _ _ _)
    [Cmd (SetStreamContext _ _ _ _ v a); Cmd (InitializeSession _ _ _ _ ctx); Cmd (StartSession _ _ _ _)] =
  Some {| session := Some s; video_stream_context := None; audio_stream_context := None |}.
Proof.
  intros Hn. cbn. rewrite Hn. cbn. destruct (is_running s); reflexivity.
Qed.

End ManagerRunFacts.

Lemma manager_exits_only_on_channel_close_witness :
  Manager.run N N unit unit unit (fun c => Ok c) (fun s => s) (fun _ => false)
    (fun s _ _ => s) (fun s => s) (fun s _ => s) (Manager.default_inner _ _ _)
    [Command _ _ _ _ (InitializeSession _ _ _ _ 5); ChannelClosed _ _ _ _;
     Command _ _ _ _ (StartSession _ _ _ _)] = None.
Proof.
  apply (manager_exits_only_on_channel_close N N unit unit unit (fun c => Ok c) (fun s => s) (fun _ => false)
           (fun s _ _ => s) (fun s => s) (fun s _ => s)).
  cbn. right. left. reflexivity.
Defined.

Lemma manager_contexts_set_together_witness :
  Manager.run N N unit N N (fun c => Ok c) (fun s => s) (fun _ => false)
    (fun s _ _ => s) (fun s => s) (fun s _ => s) (Manager.default_inner _ _ _)
    [Command _ _ _ _ (InitializeSession _ _ _ _ 5); Command _ _ _ _ (SetStreamContext _ _ _ _ 1 2)]
  = Some {| session := Some 5; video_stream_context := Some 1; audio_stream_context := Some 2 |} /\
  (is_Some (Some 1) <-> is_Some (Some 2)).
Proof.
  split; [reflexivity |].
  exact (manager_contexts_set_together N N unit N N (fun c => Ok c) (fun s => s) (fun _ => false)
           (fun s _ _ => s) (fun s => s) (fun s _ => s)
           [Command _ _ _ _ (InitializeSession _ _ _ _ 5); Command _ _ _ _ (SetStreamContext _ _ _ _ 1 2)]
           {| session := Some 5; video_stream_context := Some 1; audio_stream_context := Some 2 |}
           eq_refl).
Defined.

Lemma manager_contexts_outlive_session_witness :
  Manager.run N N unit N N (fun c => Ok (c + 100)) (fun s => s) (fun _ => false)
    (fun s v a => s + v + a) (fun s => s) (fun s _ => s)
    {| session := Some 7; video_stream_context := Some 1; audio_stream_context := Some 2 |}
    [Command _ _ _ _ (StopSession _ _ _ _); Command _ _ _ _ (InitializeSession _ _ _ _ 8);
     Command _ _ _ _ (StartSession _ _ _ _)]
  = Some {| session := Some (108 + 1 + 2); video_stream_context := Some 1; audio_stream_context := Some 2 |}.
Proof.
  apply (manager_contexts_outlive_session N N unit N N (fun c => Ok (c + 100)) (fun s => s) (fun _ => false)
           (fun s v a => s + v + a) (fun s => s) (fun s _ => s)
           {| session := Some 7; video_stream_context := Some 1; audio_stream_context := Some 2 |}
           (Command _ _ _ _ (StopSession _ _ _ _)) 7 108 1 2 8);
    [reflexivity | reflexivity | reflexivity | left; reflexivity | reflexivity | reflexivity].
Defined.

Lemma manager_context_before_session_dropped_witness :
  Manager.run N N unit N N (fun c => Ok c) (fun s => s) (fun _ => false)
    (fun s v a => s + v + a) (fun s => s) (fun s _ => s) (Manager.default_inner _ _ _)
    [Command _ _ _ _ (SetStreamContext _ _ _ _ 1 2); Command _ _ _ _ (InitializeSession _ _ _ _ 5);
     Command _ _ _ _ (StartSession _ _ _ _)]
  = Some {| session := Some 5; video_stream_context := None; audio_stream_context := None |}.
Proof.
  apply (manager_context_before_session_dropped N N unit N N (fun c => Ok c) (fun s => s) (fun _ => false)
           (fun s v a => s + v + a) (fun s => s) (fun s _ => s) 1 2 5 5).
  reflexivity.
Defined.

End ManagerRunFacts.

(** ** Pairing: further properties *)
Module PairingFlowFacts.
Import Http.
Local Open Scope string_scope.

Section PairingFlowFacts.
Variable X509 : Type.
Variable x509_from_pem : list N -> result X509.
Variable x509_to_pem : X509 -> result (list N).
Variable show_keys : gmap string string -> string.
Variable show_hex_error : Hex.FromHexError -> string.
Variable show_bytes : list N -> string.
Variable show_params : gmap string string -> string.

Local Abbreviation handle_pair_request :=
  (Pairing.handle_pair_request X509 x509_from_pem x509_to_pem show_keys show_hex_error show_bytes show_params).

Ltac skip_deleted := repeat (rewrite lookup_delete_ne by (intro; discriminate)).

(** The clientchallenge step hands the registry exactly the bytes the
    parameter hex-decodes to (upper- or lower-case digits), under its
    uniqueid, and answers with the hex-encoded challenge response, or HTTP
    400 if the registry fails. *)
Theorem pair_client_challenge_round_trip (params : gmap string string) (server_certs : X509)
    (client_manager : Clients.ClientManager X509) (unique_id value : string) (challenge : list N) :
  params !! "phrase" = None ->
  params !! "uniqueid" = Some unique_id ->
  params !! "clientchallenge" = Some value -> Hex.decode value = inl challenge ->
  handle_pair_request params server_certs client_manager =
  match Clients.client_challenge _ client_manager unique_id challenge with
  | Ok challenge_response =>
      xml_response (Pairing.paired_root
        (sappend "<challengeresponse>" (sappend (Hex.encode challenge_response) "</challengeresponse>")))
  | Err e => bad_request (sappend "Failed to process client challenge: " e)
  end.
Proof.
  intros Hp Hu Hc Hb. unfold Pairing.handle_pair_request. rewrite Hp.
  rewrite PairingFacts.is_Some_decide_true by (rewrite Hc; eauto).
  unfold Pairing.client_challenge. rewrite Hu. skip_deleted.
  rewrite Hc, Hb. reflexivity.
Qed.

(** The serverchallengeresp step hands the registry exactly the bytes the
    parameter hex-decodes to (upper- or lower-case digits), under the uniqueid, and answers with the hex-encoded pairing
    secret, or HTTP 400 if the registry fails. *)
Theorem pair_server_challenge_response_round_trip (params : gmap string string) (server_certs : X509)
    (client_manager : Clients.ClientManager X509) (unique_id value : string) (response : list N) :
  params !! "phrase" = None ->
  params !! "clientchallenge" = None ->
  params !! "serverchallengeresp" = Some value -> Hex.decode value = inl response ->
  params !! "uniqueid" = Some unique_id ->
  handle_pair_request params server_certs client_manager =
  match Clients.server_challenge_response _ client_manager unique_id response with
  | Ok pairing_secret =>
      xml_response (Pairing.paired_root
        (sappend "<pairingsecret>" (sappend (Hex.encode pairing_secret) "</pairingsecret>")))
  | Err _ => bad_request "Failed to process server challenge response"
  end.
Proof.
  intros Hp Hc Hs Hb Hu. unfold Pairing.handle_pair_request. rewrite Hp.
  rewrite (PairingFacts.is_Some_decide_false _ Hc).
  rewrite PairingFacts.is_Some_decide_true by (rewrite Hs; eauto).
  unfold Pairing.server_challenge_response. rewrite Hs, Hb.
  skip_deleted. rewrite Hu. reflexivity.
Qed.

(** The clientpairingsecret step checks exactly the bytes the parameter
    hex-decodes to (upper- or lower-case digits), under the uniqueid; it answers [<paired>1</paired>] when the check passes and
    HTTP 400 otherwise. *)
Theorem pair_client_pairing_secret_round_trip (params : gmap string string) (server_certs : X509)
    (client_manager : Clients.ClientManager X509) (unique_id value : string) (secret : list N) :
  params !! "phrase" = None ->
  params !! "clientchallenge" = None ->
  params !! "serverchallengeresp" = None ->
  params !! "clientpairingsecret" = Some value -> Hex.decode value = inl secret ->
  params !! "uniqueid" = Some unique_id ->
  handle_pair_request params server_certs client_manager =
  match Clients.check_client_pairing_secret _ client_manager unique_id secret with
  | Ok _ => xml_response (Pairing.paired_root "")
  | Err _ => bad_request "Failed to check client pairing secret"
  end.
Proof.
  intros Hp Hc Hs Hq Hb Hu. unfold Pairing.handle_pair_request. rewrite Hp.
  rewrite (PairingFacts.is_Some_decide_false _ Hc), (PairingFacts.is_Some_decide_false _ Hs).
  rewrite PairingFacts.is_Some_decide_true by (rewrite Hq; eauto).
  unfold Pairing.client_pairing_secret. rewrite Hq, Hb.
  skip_deleted. rewrite Hu. reflexivity.
Qed.

(** [phrase=pairchallenge] with a uniqueid always succeeds: the reply is
    [<paired>1</paired>] whatever the registry's [add_client] returns. *)
Theorem pair_challenge_ignores_registry (params : gmap string string) (server_certs : X509)
    (client_manager : Clients.ClientManager X509) :
  params !! "phrase" = Some "pairchallenge" ->
  is_Some (params !! "uniqueid") ->
  handle_pair_request params server_certs client_manager = xml_response (Pairing.paired_root "").
Proof.
  intros Hp [u Hu]. unfold Pairing.handle_pair_request. rewrite Hp. cbn -[Pairing.pair_challenge].
  unfold Pairing.pair_challenge. skip_deleted. rewrite Hu. reflexivity.
Qed.

(** In [getservercert], a salt that hex-decodes to anything other than
    16 bytes is refused with HTTP 400 before the client certificate is
    parsed and before the registry is called: the reply depends on neither. *)
Theorem get_server_cert_rejects_salt_length (params : gmap string string) (server_certs : X509)
    (client_manager : Clients.ClientManager X509) (cert_hex unique_id salt_hex : string)
    (cert salt : list N) :
  params !! "phrase" = Some "getservercert" ->
  params !! "clientcert" = Some cert_hex -> Hex.decode cert_hex = inl cert ->
  params !! "uniqueid" = Some unique_id ->
  params !! "salt" = Some salt_hex -> Hex.decode salt_hex = inl salt ->
  length salt <> 16%nat ->
  handle_pair_request params server_certs client_manager =
  bad_request (sappend "Failed to parse salt value, expected exactly 16 values but got "
                 (show_bytes salt)).
Proof.
  intros Hp Hc Hcd Hu Hs Hsd Hl. unfold Pairing.handle_pair_request. rewrite Hp.
  cbn -[Pairing.get_server_cert]. unfold Pairing.get_server_cert.
  skip_deleted. rewrite Hc, Hcd. skip_deleted. rewrite Hu. skip_deleted. rewrite Hs, Hsd.
  apply Nat.eqb_neq in Hl. rewrite Hl. reflexivity.
Qed.

(** In [getservercert] with well-formed input, the registry is handed a
    fresh pending client (the uniqueid, the parsed certificate and the
    16-byte salt, no key, secret, challenge or hash yet); once it accepts,
    the reply carries the server certificate's PEM, hex-encoded. *)
Theorem get_server_cert_registers_pending_client (params : gmap string string) (server_certs : X509)
    (client_manager : Clients.ClientManager X509) (cert_hex unique_id salt_hex : string)
    (cert salt : list N) (pem : X509) :
  params !! "phrase" = Some "getservercert" ->
  params !! "clientcert" = Some cert_hex -> Hex.decode cert_hex = inl cert ->
  params !! "uniqueid" = Some unique_id ->
  params !! "salt" = Some salt_hex -> Hex.decode salt_hex = inl salt ->
  length salt = 16%nat -> x509_from_pem cert = Ok pem ->
  handle_pair_request params server_certs client_manager =
  match Clients.start_pairing _ client_manager
          {| Clients.id := unique_id; Clients.pem := pem; Clients.salt := salt;
             Clients.key := None; Clients.server_secret := None;
             Clients.server_challenge := None; Clients.client_hash := None |} with
  | Err e => bad_request (sappend "Failed to start pairing client: " e)
  | Ok _ =>
      match x509_to_pem server_certs with
      | Err e => bad_request e
      | Ok serialized_server_pem =>
          xml_response (Pairing.paired_root
            (sappend "<plaincert>" (sappend (Hex.encode serialized_server_pem) "</plaincert>")))
      end
  end.
Proof.
  intros Hp Hc Hcd Hu Hs Hsd Hl Hpem. unfold Pairing.handle_pair_request. rewrite Hp.
  cbn -[Pairing.get_server_cert]. unfold Pairing.get_server_cert.
  skip_deleted. rewrite Hc, Hcd. skip_deleted. rewrite Hu. skip_deleted. rewrite Hs, Hsd.
  rewrite Hl. cbn [negb Nat.eqb]. rewrite Hpem. reflexivity.
Qed.

Lemma response_shape_of (r : Response) :
  (exists message, r = bad_request message) \/ (exists inner, r = xml_response (Pairing.paired_root inner)) ->
  (exists message, r = bad_request message) \/
  (status r = 200 /\ headers r = [("content-type", "application/xml")] /\
   exists inner, body r = Pairing.paired_root inner).
Proof.
  intros [Hb | [inner ->]]; [left; exact Hb | right; split; [reflexivity | split; eauto]].
Qed.

(** Every reply of the pairing endpoint is either the webserver's
    [bad_request] reply for some message, or a status-200 XML document
    [<root status_code="200"><paired>1</paired>...</root>] with the
    [application/xml] content type; no other status or shape occurs. *)
Theorem pair_response_shape (params : gmap string string) (server_certs : X509)
    (client_manager : Clients.ClientManager X509) :
  (exists message, handle_pair_request params server_certs client_manager = bad_request message) \/
  (status (handle_pair_request params server_certs client_manager) = 200 /\
   headers (handle_pair_request params server_certs client_manager) = [("content-type", "application/xml")] /\
   exists inner, body (handle_pair_request params server_certs client_manager) = Pairing.paired_root inner).
Proof.
  apply response_shape_of.
  unfold Pairing.handle_pair_request, Pairing.get_server_cert, Pairing.pair_challenge,
    Pairing.client_challenge, Pairing.server_challenge_response, Pairing.client_pairing_secret.
  cbv zeta. repeat case_match; eauto.
Qed.

End PairingFlowFacts.

Lemma pair_client_challenge_round_trip_witness :
  Fixtures.handle_pair_request Fixtures.challenge_params tt Fixtures.cm_check_fails =
  xml_response (Pairing.paired_root
    (sappend "<challengeresponse>" (sappend (Hex.encode []) "</challengeresponse>"))).
Proof.
  apply (pair_client_challenge_round_trip unit _ _ _ _ _ _ Fixtures.challenge_params tt
           Fixtures.cm_check_fails "client" "0AfF" [10; 255]); reflexivity.
Defined.

Lemma pair_server_challenge_response_round_trip_witness :
  Fixtures.handle_pair_request Fixtures.server_response_params tt Fixtures.cm_check_fails =
  xml_response (Pairing.paired_root
    (sappend "<pairingsecret>" (sappend (Hex.encode []) "</pairingsecret>"))).
Proof.
  apply (pair_server_challenge_response_round_trip unit _ _ _ _ _ _ Fixtures.server_response_params tt
           Fixtures.cm_check_fails "client" "E9" [233]); reflexivity.
Defined.

Lemma pair_client_pairing_secret_round_trip_witness :
  Fixtures.handle_pair_request Fixtures.pairing_secret_params tt Fixtures.cm_check_fails =
  bad_request "Failed to check client pairing secret".
Proof.
  apply (pair_client_pairing_secret_round_trip unit _ _ _ _ _ _ Fixtures.pairing_secret_params tt
           Fixtures.cm_check_fails "client" "Ab" [171]); reflexivity.
Defined.

Lemma pair_challenge_ignores_registry_witness :
  Fixtures.handle_pair_request Fixtures.pair_challenge_params tt Fixtures.cm_all_fail =
  xml_response (Pairing.paired_root "").
Proof.
  apply (pair_challenge_ignores_registry unit _ _ _ _ _ _ Fixtures.pair_challenge_params tt
           Fixtures.cm_all_fail);
    [reflexivity | eexists; reflexivity].
Defined.

Lemma get_server_cert_rejects_salt_length_witness :
  Fixtures.handle_pair_request (Fixtures.server_cert_params "0011") tt Fixtures.cm_check_fails =
  bad_request (sappend "Failed to parse salt value, expected exactly 16 values but got " "[..]").
Proof.
  apply (get_server_cert_rejects_salt_length unit _ _ _ _ (fun _ => "[..]") _
           (Fixtures.server_cert_params "0011") tt Fixtures.cm_check_fails "00" "client" "0011" [0] [0; 17]);
    [reflexivity | reflexivity | reflexivity | reflexivity | reflexivity | reflexivity | discriminate].
Defined.

Lemma get_server_cert_registers_pending_client_witness :
  Pairing.handle_pair_request unit (fun _ => Ok tt) (fun _ => Ok [171])
    (fun _ => "[..]") (fun _ => "Odd number of digits") (fun _ => "[..]") (fun _ => "{..}")
    (Fixtures.server_cert_params Fixtures.salt16) tt Fixtures.cm_check_fails =
  xml_response (Pairing.paired_root (sappend "<plaincert>" (sappend "ab" "</plaincert>"))).
Proof.
  apply (get_server_cert_registers_pending_client unit (fun _ => Ok tt) (fun _ => Ok [171])
           (fun _ => "[..]") (fun _ => "Odd number of digits") (fun _ => "[..]") (fun _ => "{..}")
           (Fixtures.server_cert_params Fixtures.salt16) tt Fixtures.cm_check_fails
           "00" "client" Fixtures.salt16 [0]
           [0; 17; 34; 51; 68; 85; 102; 119; 136; 153; 170; 187; 204; 221; 238; 255] tt);
    reflexivity.
Defined.

End PairingFlowFacts.

(** ** RTSP: further properties *)
Module RtspServerFacts.
Import Rtsp RtspServer.
Local Open Scope string_scope.

(** *** The CSeq of a request *)

Section Respond.
Variable config : Config.
Variable sdp_parse : list N -> result SdpSession.
Variable manager_open : bool.
Variable described : result (list N).

Local Abbreviation respond := (RtspServer.respond config sdp_parse manager_open described).

(** A request whose CSeq header is missing or is not an i32 gets no
    response at all (the connection handler returns an error); any other
    request gets a response, whatever its method, whose first header is
    its CSeq and whose version is its own. *)
Theorem respond_echoes_cseq (r : RequestMessage) :
  (cseq_header r = None -> respond (MRequest r) = ClosedErr) /\
  (forall h, cseq_header r = Some h -> parse_i32 h = None -> respond (MRequest r) = ClosedErr) /\
  (forall h cseq, cseq_header r = Some h -> parse_i32 h = Some cseq ->
     exists response, respond (MRequest r) = Responded response /\
       head (headers response) = Some ("CSeq", pretty cseq) /\
       rversion response = version (request r)).
Proof.
  unfold RtspServer.respond. split; [| split].
  - intros ->. reflexivity.
  - intros h -> ->. reflexivity.
  - intros h cseq -> ->. eexists. split; [reflexivity |].
    destruct (method r); cbv zeta;
      unfold handle_announce_request, handle_describe_request, handle_options_request,
        handle_setup_request, handle_play_request, no_push, rtsp_response;
      repeat case_match; cbn; auto.
Qed.

End Respond.

Lemma respond_echoes_cseq_witness :
  RtspServer.respond Fixtures.rtsp_config (fun _ => Err "") true (Ok [])
    (MRequest (Fixtures.options_message (Some "x7"))) = ClosedErr /\
  exists response,
    RtspServer.respond Fixtures.rtsp_config (fun _ => Err "") true (Ok [])
      (MRequest (Fixtures.options_message (Some "-7"))) = Responded response /\
    head (headers response) = Some ("CSeq", pretty (-7)%Z) /\ rversion response = V1_0.
Proof.
  destruct (respond_echoes_cseq Fixtures.rtsp_config (fun _ => Err "") true (Ok [])
              (Fixtures.options_message (Some "x7"))) as (_ & Hbad & _).
  destruct (respond_echoes_cseq Fixtures.rtsp_config (fun _ => Err "") true (Ok [])
              (Fixtures.options_message (Some "-7"))) as (_ & _ & Hok).
  split.
  - apply (Hbad "x7"); reflexivity.
  - apply (Hok "-7" (-7)%Z); reflexivity.
Defined.

(** *** Reads that split a UTF-8 character *)

Lemma utf8_valid_cons (b : N) (r : list N) :
  utf8_valid (b :: r) =
    if N.ltb b 128 then utf8_valid r else
    match r with
    | [] => false
    | b1 :: r1 =>
      if in_range 194 223 b then cont b1 && utf8_valid r1 else
      match r1 with
      | [] => false
      | b2 :: r2 =>
        if N.eqb b 224 then in_range 160 191 b1 && cont b2 && utf8_valid r2
        else if in_range 225 236 b || in_range 238 239 b then cont b1 && cont b2 && utf8_valid r2
        else if N.eqb b 237 then in_range 128 159 b1 && cont b2 && utf8_valid r2
        else
        match r2 with
        | [] => false
        | b3 :: r3 =>
          if N.eqb b 240 then in_range 144 191 b1 && cont b2 && cont b3 && utf8_valid r3
          else if in_range 241 243 b then cont b1 && cont b2 && cont b3 && utf8_valid r3
          else if N.eqb b 244 then in_range 128 143 b1 && cont b2 && cont b3 && utf8_valid r3
          else false
        end
      end
    end.
Proof. reflexivity. Qed.

Lemma utf8_valid_lead_last_n (b : N) (n : nat) (l : list N) :
  (194 <= b <= 244)%N -> (length l <= n)%nat -> utf8_valid (l ++ [b]) = false.
Proof.
  intros Hb. revert l. induction n as [| n IH]; intros l Hl.
  - destruct l; [| cbn in Hl; lia]. cbn [app]. rewrite utf8_valid_cons.
    replace (N.ltb b 128) with false by (symmetry; apply N.ltb_ge; lia). reflexivity.
  - assert (Hc : cont b = false)
      by (unfold cont, in_range; apply andb_false_iff; right; apply N.leb_gt; lia).
    assert (H0 : utf8_valid [b] = false) by (apply (IH []); cbn; lia).
    destruct l as [| x l]; [exact H0 |].
    cbn in Hl. cbn [app]. rewrite utf8_valid_cons.
    destruct (N.ltb x 128); [apply IH; lia |].
    destruct l as [| y [| z [| u l]]]; cbn [app]; cbv beta iota;
      [| | assert (H1 : utf8_valid [z; b] = false) by (apply (IH [z]); cbn in *; lia)
       | assert (H1 : utf8_valid (z :: u :: l ++ [b]) = false) by (apply (IH (z :: u :: l)); cbn in *; lia);
         assert (H2 : utf8_valid (u :: l ++ [b]) = false) by (apply (IH (u :: l)); cbn in *; lia);
         assert (H3 : utf8_valid (l ++ [b]) = false) by (apply IH; cbn in *; lia)];
      rewrite ?Hc, ?H0, ?H1, ?H2, ?H3, ?andb_false_r, ?andb_false_l;
      repeat match goal with |- context [if ?c then _ else _] => destruct c end;
      rewrite ?Hc, ?H0, ?H1, ?H2, ?H3, ?andb_false_r, ?andb_false_l; reflexivity.
Qed.

(** A read that ends with the lead byte of a multi-byte UTF-8 character
    (0xC2 to 0xF4) ends the connection with an error and no response, even
    when the next read would complete the character: each read is checked
    as UTF-8 on its own. *)
Theorem connection_read_splitting_utf8_char_fails (config : Config) (message_parse : string -> ParseResult)
    (sdp_parse : list N -> result SdpSession) (manager_open : bool) (described : result (list N))
    (message_buffer : string) (bytes : list N) (b : N) (rest : list ReadResult) :
  last bytes = Some b -> (194 <= b <= 244)%N ->
  handle_connection_from config message_parse sdp_parse manager_open described
    message_buffer (ReadBytes bytes :: rest) = ClosedErr.
Proof.
  intros Hlast Hb.
  apply last_Some in Hlast as [l ->].
  cbn [handle_connection_from].
  destruct (l ++ [b])%list as [| x bs] eqn:E; [destruct l; discriminate |].
  unfold from_utf8. rewrite <- E.
  rewrite (utf8_valid_lead_last_n b (length l) l Hb (le_n _)).
  reflexivity.
Qed.

Lemma connection_read_splitting_utf8_char_fails_witness :
  RtspServer.handle_connection Fixtures.rtsp_config (fun _ => Incomplete) (fun _ => Err "") true (Ok [])
    [ReadBytes [79; 80; 195]; ReadBytes [169]] = ClosedErr.
Proof.
  apply (connection_read_splitting_utf8_char_fails Fixtures.rtsp_config (fun _ => Incomplete)
           (fun _ => Err "") true (Ok []) EmptyString [79; 80; 195] 195 [ReadBytes [169]]);
    [reflexivity | lia].
Defined.

(** *** What the parser is given *)

Lemma sappend_assoc (a b c : string) : sappend a (sappend b c) = sappend (sappend a b) c.
Proof. unfold sappend. induction a as [| x a IH]; [reflexivity | cbv [String.append]; fold String.append; rewrite IH; reflexivity]. Qed.

Lemma sappend_empty_r (a : string) : sappend a EmptyString = a.
Proof. unfold sappend. induction a as [| x a IH]; [reflexivity | cbv [String.append]; fold String.append; rewrite IH; reflexivity]. Qed.

(** When a request arrives over several reads, the parser is given, after
    each read, the two URI rewrites applied to the raw concatenation of
    everything read so far (not to the previously rewritten text); the
    connection keeps reading while the parser reports an incomplete
    message and answers the message it finally parses. *)
Theorem connection_parses_accumulated_reads (config : Config) (message_parse : string -> ParseResult)
    (sdp_parse : list N -> result SdpSession) (manager_open : bool) (described : result (list N))
    (message_buffer : string) (bss : list (list N)) (texts : list string) (m : Message)
    (rest : list ReadResult) :
  Forall2 (fun bs t => bs <> [] /\ from_utf8 bs = Some t) bss texts ->
  texts <> [] ->
  (forall k, (0 < k < length texts)%nat ->
     message_parse (rewrite_request (sappend message_buffer (foldr sappend EmptyString (take k texts))))
       = Incomplete) ->
  message_parse (rewrite_request (sappend message_buffer (foldr sappend EmptyString texts))) = Parsed m ->
  handle_connection_from config message_parse sdp_parse manager_open described
    message_buffer (map ReadBytes bss ++ rest) =
  respond config sdp_parse manager_open described m.
Proof.
  intros Hall. revert message_buffer.
  induction Hall as [| bs t bss texts [Hne Ht] Hall IH]; intros buf Hnil Hinc Hfin; [congruence |].
  destruct bs as [| x bs]; [congruence |].
  cbn [map app handle_connection_from]. rewrite Ht.
  destruct texts as [| t' texts].
  - cbn [foldr] in Hfin. rewrite sappend_empty_r in Hfin. rewrite Hfin. reflexivity.
  - assert (H1 := Hinc 1%nat ltac:(cbn; lia)). cbn [take foldr] in H1.
    rewrite sappend_empty_r in H1. rewrite H1.
    apply IH; [discriminate | |].
    + intros k Hk. rewrite <- sappend_assoc.
      apply (Hinc (S k)). cbn in *. lia.
    + rewrite <- sappend_assoc. exact Hfin.
Qed.

Lemma connection_parses_accumulated_reads_witness :
  RtspServer.handle_connection_from Fixtures.rtsp_config
    (fun s => if String.eqb s "OPTIONS" then Parsed (MRequest (Fixtures.options_message (Some "2")))
              else Incomplete)
    (fun _ => Err "") true (Ok []) EmptyString
    [ReadBytes [79; 80; 84]; ReadBytes [73; 79; 78; 83]] =
  RtspServer.respond Fixtures.rtsp_config (fun _ => Err "") true (Ok [])
    (MRequest (Fixtures.options_message (Some "2"))).
Proof.
  apply (connection_parses_accumulated_reads Fixtures.rtsp_config
           (fun s => if String.eqb s "OPTIONS" then Parsed (MRequest (Fixtures.options_message (Some "2")))
                     else Incomplete)
           (fun _ => Err "") true (Ok []) EmptyString [[79; 80; 84]; [73; 79; 78; 83]] ["OPT"; "IONS"]
           (MRequest (Fixtures.options_message (Some "2"))) []).
  - repeat constructor; discriminate.
  - discriminate.
  - intros k Hk. destruct k as [| [| k]]; [lia | reflexivity | cbn in Hk; lia].
  - reflexivity.
Defined.

End RtspServerFacts.
